(** * Monad registration templates of create-8004-agent

    A shallow embedding of [src/templates/monad.ts]: the contract table,
    [getMonadContracts], and the four text generators
    [generateMonadPackageJson], [generateMonadEnv],
    [generateMonadRegisterScript] and [generateMonadReadme].

    - ECMAScript strings are sequences of UTF-16 code units, so a string is a
      list of code units ([N]); the template texts are written as UTF-8
      literals, character for character as in the source file, and decoded
      into code units by [u].
    - The host functions the templates call are written out from ECMA-262:
      [join], [includes], [replace] with the two patterns of the source,
      [JSON.stringify] on objects of strings. [toLowerCase] needs the Unicode
      case tables and is a parameter of the generators.
    - A template literal is the list of its lines, joined by line feeds.
    - [hasFeature] comes from [wizard.js], which is not among the sources,
      and is modelled from the spec.

    The A2A server of a generated project is embedded as well: the handler
    of [POST /a2a] and its three methods are functions on the two maps of
    the server, and what [uuidv4] and [generateResponse] return comes with
    each request. *)

From Stdlib Require Import List NArith ZArith Bool Ascii String Lia PeanoNat.
From Stdlib Require Import Numbers.DecimalString.
Import ListNotations.

Local Open Scope N_scope.
Local Open Scope list_scope.

(* ===================================================================== *)
(** ** Strings as UTF-16 code units *)
(* ===================================================================== *)

Module JS.

(** One UTF-16 code unit. *)
Definition char16 := N.

(** An ECMAScript string value. *)
Definition jsstring := list char16.

(** The bytes of a literal. *)
Fixpoint bytes_of_string (s : string) : list N :=
  match s with
  | EmptyString => []
  | String a s' => N_of_ascii a :: bytes_of_string s'
  end.

(** Low six bits of a UTF-8 continuation byte. *)
Definition cont (b : N) : N := N.land b 63.

(** UTF-8 bytes to Unicode code points (literals are well formed; a
    truncated sequence at the end of the input is dropped). *)
Fixpoint utf8_decode (bs : list N) : list N :=
  match bs with
  | [] => []
  | b :: r =>
    if b <? 128 then b :: utf8_decode r
    else if b <? 224 then
      match r with
      | c1 :: r1 => (N.shiftl (N.land b 31) 6 + cont c1) :: utf8_decode r1
      | _ => []
      end
    else if b <? 240 then
      match r with
      | c1 :: c2 :: r2 =>
        (N.shiftl (N.land b 15) 12 + N.shiftl (cont c1) 6 + cont c2)
          :: utf8_decode r2
      | _ => []
      end
    else
      match r with
      | c1 :: c2 :: c3 :: r3 =>
        (N.shiftl (N.land b 7) 18 + N.shiftl (cont c1) 12
         + N.shiftl (cont c2) 6 + cont c3) :: utf8_decode r3
      | _ => []
      end
  end.

(** UTF16EncodeCodePoint. *)
Definition utf16_encode (cp : N) : jsstring :=
  if cp <? 65536 then [cp]
  else [55296 + N.shiftr (cp - 65536) 10; 56320 + N.land (cp - 65536) 1023].

(** The string value of a source literal. *)
Definition u (s : string) : jsstring :=
  flat_map utf16_encode (utf8_decode (bytes_of_string s)).

(** Single characters that cannot be written inside a literal here. *)
Definition LF : jsstring := [10].
Definition DQ : jsstring := [34].
Definition BSLASH : jsstring := [92].

(** [a === b] on strings. *)
Fixpoint str_eqb (a b : jsstring) : bool :=
  match a, b with
  | [], [] => true
  | x :: a', y :: b' => (x =? y) && str_eqb a' b'
  | _, _ => false
  end.

(** [Array.prototype.join] on an array of strings. *)
Fixpoint join (sep : jsstring) (l : list jsstring) : jsstring :=
  match l with
  | [] => []
  | [x] => x
  | x :: rest => x ++ sep ++ join sep rest
  end.

(** [Array.prototype.includes] on an array of strings. *)
Definition includes (l : list jsstring) (x : jsstring) : bool :=
  existsb (str_eqb x) l.

(** [String.prototype.startsWith]. *)
Fixpoint startsWith (p s : jsstring) : bool :=
  match p, s with
  | [], _ => true
  | x :: p', y :: s' => (x =? y) && startsWith p' s'
  | _ :: _, [] => false
  end.

(** The lines of a text: [s.split("\n")]. *)
Fixpoint lines (s : jsstring) : list jsstring :=
  match s with
  | [] => [[]]
  | c :: s' =>
    if c =? 10 then [] :: lines s'
    else match lines s' with
         | [] => [[c]]
         | l :: ls => (c :: l) :: ls
         end
  end.

(** [s.replace(/c/g, rep)] for a pattern that is one literal character and a
    replacement text without [$] patterns. *)
Definition replaceAllChar (c : char16) (rep : jsstring) (s : jsstring) : jsstring :=
  flat_map (fun x => if x =? c then rep else [x]) s.

(** The class [\s] of ECMAScript regular expressions: WhiteSpace and
    LineTerminator code points, all of them single code units. *)
Definition isWhiteSpace (c : char16) : bool :=
  (c =? 9) || (c =? 10) || (c =? 11) || (c =? 12) || (c =? 13) || (c =? 32)
  || (c =? 160) || (c =? 5760) || ((8192 <=? c) && (c <=? 8202))
  || (c =? 8232) || (c =? 8233) || (c =? 8239) || (c =? 8287)
  || (c =? 12288) || (c =? 65279).

(** [s.replace(/\s+/g, rep)]: the scan emits [rep] when it enters a match of
    [\s+]; the match is greedy, so the rest of the run is consumed ([inRun])
    and the scan resumes at the first character outside the class. *)
Fixpoint replaceWsFrom (inRun : bool) (rep : jsstring) (s : jsstring) : jsstring :=
  match s with
  | [] => []
  | c :: s' =>
    if isWhiteSpace c
    then (if inRun then [] else rep) ++ replaceWsFrom true rep s'
    else c :: replaceWsFrom false rep s'
  end.

Definition replaceWhitespaceRuns (rep : jsstring) (s : jsstring) : jsstring :=
  replaceWsFrom false rep s.

(** [Number::toString] of a non-negative integer below 10^21: its decimal
    numeral. *)
Definition numberToString (n : N) : jsstring :=
  u (NilZero.string_of_uint (N.to_uint n)).

End JS.
Import JS.

(* ===================================================================== *)
(** ** JSON.stringify on objects of strings *)
(* ===================================================================== *)

Module JSON.

(** The values the manifest is built from: strings and objects. The members
    of an object are kept in property order. *)
#[local] Set Warnings "-register-all".
Inductive value : Type :=
| Str (s : jsstring)
| Obj (members : list (jsstring * value)).

Definition hexDigit (d : N) : char16 :=
  if d <? 10 then 48 + d else 87 + d.

(** UnicodeEscape: backslash, the letter u and four lower-case hex digits. *)
Definition unicodeEscape (c : char16) : jsstring :=
  BSLASH ++ u "u" ++
  [hexDigit (N.shiftr c 12); hexDigit (N.land (N.shiftr c 8) 15);
   hexDigit (N.land (N.shiftr c 4) 15); hexDigit (N.land c 15)].

Definition isHighSurrogate (c : char16) : bool := (55296 <=? c) && (c <=? 56319).
Definition isLowSurrogate (c : char16) : bool := (56320 <=? c) && (c <=? 57343).

(** The escape of one code unit that is not half of a surrogate pair. *)
Definition quoteUnit (c : char16) : jsstring :=
  if c =? 8 then BSLASH ++ u "b"
  else if c =? 9 then BSLASH ++ u "t"
  else if c =? 10 then BSLASH ++ u "n"
  else if c =? 12 then BSLASH ++ u "f"
  else if c =? 13 then BSLASH ++ u "r"
  else if c =? 34 then BSLASH ++ DQ
  else if c =? 92 then BSLASH ++ BSLASH
  else if (c <? 32) || isHighSurrogate c || isLowSurrogate c then unicodeEscape c
  else [c].

(** The characters between the quotes of QuoteJSONString: a well-formed
    surrogate pair is one code point and is copied, everything else goes
    through [quoteUnit]. *)
Fixpoint quoteBody (s : jsstring) : jsstring :=
  match s with
  | [] => []
  | c :: s' =>
    if isHighSurrogate c then
      match s' with
      | d :: s'' =>
        if isLowSurrogate d then c :: d :: quoteBody s''
        else quoteUnit c ++ quoteBody s'
      | [] => quoteUnit c
      end
    else quoteUnit c ++ quoteBody s'
  end.

(** QuoteJSONString. *)
Definition quote (s : jsstring) : jsstring := DQ ++ quoteBody s ++ DQ.

(** SerializeJSONProperty / SerializeJSONObject with a non-empty [gap];
    [indent] is the current indentation. *)
Fixpoint serialize (gap indent : jsstring) (v : value) : jsstring :=
  match v with
  | Str s => quote s
  | Obj members =>
    match members with
    | [] => u "{}"
    | _ =>
      let stepback := indent in
      let indent := indent ++ gap in
      let partial :=
        map (fun kv => quote (fst kv) ++ u ":" ++ u " " ++ serialize gap indent (snd kv))
            members in
      u "{" ++ LF ++ indent ++ join (u "," ++ LF ++ indent) partial
        ++ LF ++ stepback ++ u "}"
    end
  end.

(** [JSON.stringify(v, null, 2)]. *)
Definition stringify2 (v : value) : jsstring := serialize (u "  ") [] v.

End JSON.

(* ===================================================================== *)
(** ** Objects used as string maps *)
(* ===================================================================== *)

Module Rec.

(** A [Record<string, string>] whose keys are not array indices: the
    properties in creation order. *)
Definition t := list (jsstring * jsstring).

(** [o[k]]. *)
Fixpoint get (k : jsstring) (o : t) : option jsstring :=
  match o with
  | [] => None
  | (k', v) :: o' => if str_eqb k k' then Some v else get k o'
  end.

(** [o[k] = v]: an existing property keeps its place, a new one is added
    last. *)
Fixpoint set (k v : jsstring) (o : t) : t :=
  match o with
  | [] => [(k, v)]
  | (k', v') :: o' => if str_eqb k k' then (k', v) :: o' else (k', v') :: set k v o'
  end.

Definition keys (o : t) : list jsstring := map fst o.

(** The object as a JSON value. *)
Definition toJSON (o : t) : JSON.value :=
  JSON.Obj (map (fun kv => (fst kv, JSON.Str (snd kv))) o).

End Rec.

(* ===================================================================== *)
(** ** Inputs: wizard answers and chain configuration *)
(* ===================================================================== *)

Module Wizard.

(** The answers collected by the wizard, with the fields the templates and
    [test-register.ts] use. An absent [generatedPrivateKey] is [None]. *)
Record WizardAnswers : Type := {
  projectDir : jsstring;
  agentName : jsstring;
  agentDescription : jsstring;
  agentImage : jsstring;
  features : list jsstring;
  a2aStreaming : bool;
  chain : jsstring;
  trustModels : list jsstring;
  agentWallet : jsstring;
  generatedPrivateKey : option jsstring
}.

(** Modelled from the spec: [hasFeature] is imported from [wizard.js], which
    is not among the sources; the spec calls it the feature-membership
    predicate over the [features] of the answers. *)
Definition hasFeature (answers : WizardAnswers) (feature : jsstring) : bool :=
  includes (features answers) feature.

End Wizard.
Import Wizard.

Module Config.

(** Modelled from the spec: [CHAINS] of [config.js] is not among the
    sources; an entry has [name], [chainId] (numeric), [rpcUrl] and
    [scanPath], the fields the templates read. Chain ids are non-negative
    integers. *)
Record ChainConfig : Type := {
  name : jsstring;
  chainId : N;
  rpcUrl : jsstring;
  scanPath : jsstring
}.

End Config.
Import Config.

(* ===================================================================== *)
(** ** Contract addresses *)
(* ===================================================================== *)

Record ContractPair : Type := {
  identityRegistry : jsstring;
  reputationRegistry : jsstring
}.

Record ContractTable : Type := {
  mainnet : ContractPair;
  testnet : ContractPair
}.

Definition MONAD_CONTRACTS : ContractTable :=
  {| mainnet :=
       {| identityRegistry := u "0x8004A169FB4a3325136EB29fA0ceB6D2e539a432";
          reputationRegistry := u "0x8004BAa17C55a88189AE136b182e5fdA19dE9b63" |};
     testnet :=
       {| identityRegistry := u "0x8004A818BFB912233c491871b3d84c89A494BD9e";
          reputationRegistry := u "0x8004B663056A597Dffe9eCcC1965A193B7388713" |} |}.

Definition isMonadChain (chain : jsstring) : bool :=
  str_eqb chain (u "monad-mainnet") || str_eqb chain (u "monad-testnet").

Definition getMonadContracts (chain : jsstring) : ContractPair :=
  if str_eqb chain (u "monad-mainnet")
  then mainnet MONAD_CONTRACTS
  else testnet MONAD_CONTRACTS.

(* ===================================================================== *)
(** ** The package manifest *)
(* ===================================================================== *)

(** The three objects [generateMonadPackageJson] builds and then updates. *)
Record Manifest : Type := {
  scripts : Rec.t;
  dependencies : Rec.t;
  devDependencies : Rec.t
}.

Definition baseManifest : Manifest :=
  {| scripts :=
       [ (u "build", u "tsc");
         (u "register", u "tsx src/register.ts") ];
     dependencies :=
       [ (u "viem", u "^2.21.0");
         (u "dotenv", u "^16.3.1");
         (u "openai", u "^4.68.0") ];
     devDependencies :=
       [ (u "@types/node", u "^20.10.0");
         (u "tsx", u "^4.7.0");
         (u "typescript", u "^5.3.0") ] |}.

(** The body of [if (hasFeature(answers, a2a))]. *)
Definition addA2A (m : Manifest) : Manifest :=
  {| scripts := Rec.set (u "start:a2a") (u "tsx src/a2a-server.ts") (scripts m);
     dependencies :=
       Rec.set (u "uuid") (u "^9.0.0")
         (Rec.set (u "express") (u "^4.18.2") (dependencies m));
     devDependencies :=
       Rec.set (u "@types/uuid") (u "^9.0.7")
         (Rec.set (u "@types/express") (u "^4.17.21") (devDependencies m)) |}.

(** The body of [if (hasFeature(answers, mcp))]. *)
Definition addMCP (m : Manifest) : Manifest :=
  {| scripts := Rec.set (u "start:mcp") (u "tsx src/mcp-server.ts") (scripts m);
     dependencies :=
       Rec.set (u "@modelcontextprotocol/sdk") (u "^1.0.0") (dependencies m);
     devDependencies := devDependencies m |}.

(** The objects as they stand when [JSON.stringify] is called. *)
Definition manifestOf (answers : WizardAnswers) : Manifest :=
  let m := baseManifest in
  let m := if hasFeature answers (u "a2a") then addA2A m else m in
  let m := if hasFeature answers (u "mcp") then addMCP m else m in
  m.

(** [a || b] on an optional string: the empty string is falsy. *)
Definition orElse (a : option jsstring) (b : jsstring) : jsstring :=
  match a with
  | Some (c :: s) => c :: s
  | Some [] => b
  | None => b
  end.

(** [s.replace(/"/g, '\\"')]: every double quote becomes backslash, quote. *)
Definition escapeQuotes (s : jsstring) : jsstring :=
  replaceAllChar 34 (BSLASH ++ DQ) s.

(** [chain.chainId === 143 ? (empty) : Testnet]. *)
Definition monadSuffix (chain : ChainConfig) : jsstring :=
  if chainId chain =? 143 then [] else u "Testnet".

(* ===================================================================== *)
(** ** Template texts *)
(* ===================================================================== *)

(** The lines of the environment template (the template literal of
    [generateMonadEnv]). *)
Definition envLines (privateKeyValue : jsstring) (chain : ChainConfig) : list jsstring :=
  [
    u "# Required for registration";
    u "PRIVATE_KEY=" ++ privateKeyValue;
    [];
    u "# RPC URL for " ++ name chain;
    u "RPC_URL=" ++ rpcUrl chain;
    [];
    u "# Pinata JWT for IPFS upload (get from https://pinata.cloud)";
    u "PINATA_JWT=your_pinata_jwt_here";
    [];
    u "# OpenAI API key for LLM agent";
    u "OPENAI_API_KEY=your_openai_api_key_here";
    []
  ].

(** The two [services.push] template literals. *)
Definition a2aServiceLines (agentSlug : jsstring) : list jsstring :=
  [
    u "    {";
    u "      name: " ++ DQ ++ u "A2A" ++ DQ ++ u ",";
    u "      endpoint: " ++ DQ ++ u "https://" ++ agentSlug ++ u ".example.com/.well-known/agent-card.json" ++ DQ ++ u ",";
    u "      version: " ++ DQ ++ u "0.3.0" ++ DQ ++ u ",";
    u "    }"
  ].

Definition mcpServiceLines (agentSlug : jsstring) : list jsstring :=
  [
    u "    {";
    u "      name: " ++ DQ ++ u "MCP" ++ DQ ++ u ", ";
    u "      endpoint: " ++ DQ ++ u "https://" ++ agentSlug ++ u ".example.com/mcp" ++ DQ ++ u ",";
    u "      version: " ++ DQ ++ u "2025-06-18" ++ DQ ++ u ",";
    u "    }"
  ].

(** The template literal of [generateMonadRegisterScript], cut at its banner
    comments. *)
Definition scriptHeaderLines : list jsstring :=
  [
    u "/**";
    u " * ERC-8004 Agent Registration Script for Monad";
    u " * ";
    u " * Direct contract interaction (agent0-sdk doesn't support Monad yet)";
    u " * ";
    u " * Requirements:";
    u " * - PRIVATE_KEY in .env (wallet with MON for gas)";
    u " * - PINATA_JWT in .env (for IPFS upload)";
    u " * - RPC_URL in .env (optional, defaults to public endpoint)";
    u " * ";
    u " * Run with: npm run register";
    u " */";
    [];
    u "import 'dotenv/config';";
    u "import { createWalletClient, createPublicClient, http, parseAbi } from 'viem';";
    u "import { privateKeyToAccount } from 'viem/accounts';";
    u "import { defineChain } from 'viem';";
    []
  ].

Definition chainDefinitionLines (chain : ChainConfig) : list jsstring :=
  [
    u "// ============================================================================";
    u "// Monad Chain Definition";
    u "// ============================================================================";
    [];
    u "const monad" ++ monadSuffix chain ++ u " = defineChain({";
    u "  id: " ++ numberToString (chainId chain) ++ u ",";
    u "  name: '" ++ name chain ++ u "',";
    u "  nativeCurrency: { name: 'Monad', symbol: 'MON', decimals: 18 },";
    u "  rpcUrls: {";
    u "    default: { http: ['" ++ rpcUrl chain ++ u "'] },";
    u "  },";
    u "});";
    []
  ].

Definition contractConfigurationLines (contracts : ContractPair) : list jsstring :=
  [
    u "// ============================================================================";
    u "// Contract Configuration";
    u "// ============================================================================";
    [];
    u "const IDENTITY_REGISTRY = '" ++ identityRegistry contracts ++ u "';";
    [];
    u "const IDENTITY_REGISTRY_ABI = parseAbi([";
    u "  'function register(string agentURI) external returns (uint256 agentId)',";
    u "  'function balanceOf(address owner) external view returns (uint256)',";
    u "  'event Registered(uint256 indexed agentId, string agentURI, address indexed owner)',";
    u "]);";
    []
  ].

Definition agentConfigurationLines (answers : WizardAnswers) (servicesCode trustModels : jsstring) : list jsstring :=
  [
    u "// ============================================================================";
    u "// Agent Configuration";
    u "// ============================================================================";
    [];
    u "const AGENT_METADATA = {";
    u "  type: " ++ DQ ++ u "https://eips.ethereum.org/EIPS/eip-8004#registration-v1" ++ DQ ++ u ",";
    u "  name: " ++ DQ ++ escapeQuotes (agentName answers) ++ DQ ++ u ",";
    u "  description: " ++ DQ ++ escapeQuotes (agentDescription answers) ++ DQ ++ u ",";
    u "  image: " ++ DQ ++ agentImage answers ++ DQ ++ u ",";
    u "  services: " ++ servicesCode ++ u ",";
    u "  x402Support: false,";
    u "  active: true,";
    u "  registrations: [],";
    u "  supportedTrust: [" ++ trustModels ++ u "],";
    u "};";
    []
  ].

Definition ipfsUploadLines : list jsstring :=
  [
    u "// ============================================================================";
    u "// IPFS Upload via Pinata";
    u "// ============================================================================";
    [];
    u "async function uploadToIPFS(metadata: object): Promise<string> {";
    u "  const pinataJwt = process.env.PINATA_JWT;";
    u "  if (!pinataJwt) {";
    u "    throw new Error('PINATA_JWT not set in .env. Get one at https://pinata.cloud');";
    u "  }";
    [];
    u "  console.log('üì§ Uploading metadata to IPFS...');";
    [];
    u "  const response = await fetch('https://api.pinata.cloud/pinning/pinJSONToIPFS', {";
    u "    method: 'POST',";
    u "    headers: {";
    u "      'Content-Type': 'application/json',";
    u "      'Authorization': `Bearer ${pinataJwt}`,";
    u "    },";
    u "    body: JSON.stringify({";
    u "      pinataContent: metadata,";
    u "      pinataMetadata: {";
    u "        name: `agent-metadata-${Date.now()}.json`,";
    u "      },";
    u "    }),";
    u "  });";
    [];
    u "  if (!response.ok) {";
    u "    const error = await response.text();";
    u "    throw new Error(`Pinata upload failed: ${error}`);";
    u "  }";
    [];
    u "  const result = await response.json() as { IpfsHash: string };";
    u "  const ipfsUri = `ipfs://${result.IpfsHash}`;";
    u "  ";
    u "  console.log(`   IPFS hash: ${result.IpfsHash}`);";
    u "  console.log(`   Gateway: https://gateway.pinata.cloud/ipfs/${result.IpfsHash}`);";
    u "  ";
    u "  return ipfsUri;";
    u "}";
    []
  ].

Definition mainSetupLines (chain : ChainConfig) : list jsstring :=
  [
    u "// ============================================================================";
    u "// Main Registration Flow";
    u "// ============================================================================";
    [];
    u "async function main() {";
    u "  // Validate environment";
    u "  const privateKey = process.env.PRIVATE_KEY;";
    u "  if (!privateKey) {";
    u "    throw new Error('PRIVATE_KEY not set in .env');";
    u "  }";
    [];
    u "  const rpcUrl = process.env.RPC_URL || '" ++ rpcUrl chain ++ u "';";
    [];
    u "  // Initialize clients";
    u "  console.log('üîß Initializing Monad client...');";
    u "  const account = privateKeyToAccount(privateKey as `0x${string}`);";
    u "  ";
    u "  const walletClient = createWalletClient({";
    u "    account,";
    u "    chain: monad" ++ monadSuffix chain ++ u ",";
    u "    transport: http(rpcUrl),";
    u "  });";
    [];
    u "  const publicClient = createPublicClient({";
    u "    chain: monad" ++ monadSuffix chain ++ u ",";
    u "    transport: http(rpcUrl),";
    u "  });";
    [];
    u "  console.log(`   Wallet: ${account.address}`);";
    [];
    u "  // Check balance";
    u "  const balance = await publicClient.getBalance({ address: account.address });";
    u "  console.log(`   Balance: ${Number(balance) / 1e18} MON`);";
    u "  ";
    u "  if (balance === 0n) {";
    u "    throw new Error('Wallet has no MON. Fund it first: https://faucet.monad.xyz/');";
    u "  }";
    [];
    u "  // Check if wallet already has agents registered";
    u "  const agentCount = await publicClient.readContract({";
    u "    address: IDENTITY_REGISTRY,";
    u "    abi: IDENTITY_REGISTRY_ABI,";
    u "    functionName: 'balanceOf',";
    u "    args: [account.address],";
    u "  });";
    [];
    u "  if (agentCount > 0n) {";
    u "    console.log('');";
    u "    console.log(`‚ö†Ô∏è  This wallet already owns ${agentCount} agent(s).`);";
    u "    console.log('   Running register again will create a NEW agent.');";
    u "    console.log('   Press Ctrl+C to cancel, or wait 5 seconds to continue...');";
    u "    await new Promise(resolve => setTimeout(resolve, 5000));";
    u "  }";
    [];
    u "  console.log('');";
    u "  console.log('üìù Agent metadata:');";
    u "  console.log(`   Name: ${AGENT_METADATA.name}`);";
    u "  console.log(`   Description: ${AGENT_METADATA.description}`);";
    u "  console.log('');";
    [];
    u "  // Upload to IPFS";
    u "  const agentURI = await uploadToIPFS(AGENT_METADATA);";
    u "  console.log('');";
    [];
    u "  // Register on-chain";
    u "  console.log('‚õìÔ∏è  Registering agent on " ++ name chain ++ u "...');";
    u "  console.log(`   Registry: ${IDENTITY_REGISTRY}`);";
    u "  console.log(`   Agent URI: ${agentURI}`);";
    []
  ].

(** Gas estimate, transaction, receipt and agent id: the part of [main] after
    the metadata upload (no interpolation). *)
Definition registrationLines : list jsstring :=
  [
    u "  // Estimate gas first";
    u "  const gasEstimate = await publicClient.estimateContractGas({";
    u "    address: IDENTITY_REGISTRY,";
    u "    abi: IDENTITY_REGISTRY_ABI,";
    u "    functionName: 'register',";
    u "    args: [agentURI],";
    u "    account: account.address,";
    u "  });";
    [];
    u "  console.log(`   Estimated gas: ${gasEstimate}`);";
    [];
    u "  // Send transaction with buffer";
    u "  const hash = await walletClient.writeContract({";
    u "    address: IDENTITY_REGISTRY,";
    u "    abi: IDENTITY_REGISTRY_ABI,";
    u "    functionName: 'register',";
    u "    args: [agentURI],";
    u "    gas: gasEstimate * 120n / 100n, // 20% buffer";
    u "  });";
    [];
    u "  console.log(`   Tx hash: ${hash}`);";
    u "  console.log('   Waiting for confirmation...');";
    [];
    u "  // Wait for receipt";
    u "  const receipt = await publicClient.waitForTransactionReceipt({ hash });";
    u "  ";
    u "  if (receipt.status === 'reverted') {";
    u "    throw new Error('Transaction reverted');";
    u "  }";
    [];
    u "  console.log(`   Confirmed in block ${receipt.blockNumber}`);";
    [];
    u "  // Parse agentId from Transfer event (ERC-721 mint)";
    u "  // Transfer(address indexed from, address indexed to, uint256 indexed tokenId)";
    u "  // tokenId = agentId, located in topics[3]";
    u "  const TRANSFER_SIGNATURE = '0xddf252ad1be2c89b69c2b068fc378daa952ba7f163c4a11628f55a4df523b3ef';";
    u "  ";
    u "  let agentId = 'unknown';";
    u "  const transferLog = receipt.logs.find(log => log.topics[0] === TRANSFER_SIGNATURE);";
    u "  if (transferLog && transferLog.topics[3]) {";
    u "    agentId = BigInt(transferLog.topics[3]).toString();";
    u "  }"
  ].

Definition summaryLines (chain : ChainConfig) : list jsstring :=
  [
    [];
    u "  console.log('');";
    u "  console.log('‚úÖ Agent registered successfully!');";
    u "  console.log('');";
    u "  console.log('üÜî Agent ID:', agentId);";
    u "  console.log('üëõ Owner:', account.address);";
    u "  console.log('');";
    u "  console.log('üåê View on 8004scan:');";
    u "  console.log(`   https://www.8004scan.io/agents/" ++ scanPath chain ++ u "/${agentId}`);";
    u "  console.log('');";
    u "  console.log('üìã Next steps:');";
    u "  console.log('   1. Update endpoint URLs in this file with your production domain');";
    u "  console.log('   2. Run `npm run start:a2a` to start your A2A server');";
    u "  console.log('   3. Deploy your agent to a public URL');";
    u "}";
    [];
    u "main().catch((error) => {";
    u "  console.error('‚ùå Registration failed:', error.message || error);";
    u "  process.exit(1);";
    u "});";
    []
  ].


(* ===================================================================== *)
(** ** The generators *)
(* ===================================================================== *)

Section Generators.

(** [String.prototype.toLowerCase], the Unicode lower-casing of the host; the
    templates use nothing of it but its result. *)
Variable toLowerCase : jsstring -> jsstring.

(** [agentName.toLowerCase().replace(/\s+/g, -)], the expression behind the
    package name, [agentSlug] and the root of the directory tree. *)
Definition slugify (agentName : jsstring) : jsstring :=
  replaceWhitespaceRuns (u "-") (toLowerCase agentName).

Definition generateMonadPackageJson (answers : WizardAnswers) : jsstring :=
  let m := manifestOf answers in
  JSON.stringify2
    (JSON.Obj
       [ (u "name", JSON.Str (slugify (agentName answers)));
         (u "version", JSON.Str (u "1.0.0"));
         (u "description", JSON.Str (agentDescription answers));
         (u "type", JSON.Str (u "module"));
         (u "scripts", Rec.toJSON (scripts m));
         (u "dependencies", Rec.toJSON (dependencies m));
         (u "devDependencies", Rec.toJSON (devDependencies m)) ]).

Definition privateKeyValueOf (answers : WizardAnswers) : jsstring :=
  orElse (generatedPrivateKey answers) (u "your_private_key_here").

Definition generateMonadEnv (answers : WizardAnswers) (chain : ChainConfig) : jsstring :=
  let privateKeyValue := privateKeyValueOf answers in
  join LF (envLines privateKeyValue chain).

(** The [services] array after the two conditional pushes. *)
Definition servicesOf (answers : WizardAnswers) : list jsstring :=
  let agentSlug := slugify (agentName answers) in
  let hasA2A := hasFeature answers (u "a2a") in
  let hasMCP := hasFeature answers (u "mcp") in
  let services := [] in
  let services :=
    if hasA2A then services ++ [join LF (a2aServiceLines agentSlug)] else services in
  let services :=
    if hasMCP then services ++ [join LF (mcpServiceLines agentSlug)] else services in
  services.

Definition servicesCodeOf (services : list jsstring) : jsstring :=
  if (0 <? List.length services)%nat
  then u "[" ++ LF ++ join (u "," ++ LF) services ++ LF ++ u "  ]"
  else u "[]".

(** [answers.trustModels.map(t => quoted t).join(comma space)]. *)
Definition trustModelsOf (answers : WizardAnswers) : jsstring :=
  join (u ", ") (map (fun t => DQ ++ t ++ DQ) (Wizard.trustModels answers)).

Definition generateMonadRegisterScript (answers : WizardAnswers) (chain : ChainConfig)
  : jsstring :=
  let contracts := getMonadContracts (Wizard.chain answers) in
  let servicesCode := servicesCodeOf (servicesOf answers) in
  let trustModels := trustModelsOf answers in
  join LF
    (scriptHeaderLines
     ++ chainDefinitionLines chain
     ++ contractConfigurationLines contracts
     ++ agentConfigurationLines answers servicesCode trustModels
     ++ ipfsUploadLines
     ++ mainSetupLines chain
     ++ registrationLines
     ++ summaryLines chain).

(** The template literal of [generateMonadReadme]. *)
Definition readmeIntroLines (answers : WizardAnswers) (chain : ChainConfig) : list jsstring :=
  [
    u "# " ++ agentName answers;
    [];
    agentDescription answers;
    [];
    u "## Quick Start";
    [];
    u "### 1. Install dependencies";
    [];
    u "```bash";
    u "npm install";
    u "```";
    [];
    u "### 2. Configure environment";
    [];
    u "Edit `.env` and add your API keys:";
    [];
    u "```env";
    u "# Already set if wallet was auto-generated";
    u "PRIVATE_KEY=your_private_key";
    [];
    u "# Get from https://pinata.cloud";
    u "PINATA_JWT=your_pinata_jwt";
    [];
    u "# Get from https://platform.openai.com";
    u "OPENAI_API_KEY=your_openai_key";
    u "```";
    [];
    u "### 3. Fund your wallet";
    [];
    u "Your agent wallet: `" ++ agentWallet answers ++ u "`";
    [];
    u "Get testnet MON from: https://faucet.monad.xyz/";
    [];
    u "### 4. Register on-chain";
    [];
    u "```bash";
    u "npm run register";
    u "```";
    [];
    u "This will:";
    u "- Upload your agent metadata to IPFS via Pinata";
    u "- Register your agent on " ++ name chain;
    u "- Output your agent ID and 8004scan link"
  ].

Definition readmeContractsLines (answers : WizardAnswers) (contracts : ContractPair) : list jsstring :=
  [
    [];
    u "## Monad Contracts";
    [];
    u "- **Identity Registry**: `" ++ identityRegistry contracts ++ u "`";
    u "- **Reputation Registry**: `" ++ reputationRegistry contracts ++ u "`";
    [];
    u "## Project Structure";
    [];
    u "```";
    slugify (agentName answers) ++ u "/";
    u "‚îú‚îÄ‚îÄ src/";
    u "‚îÇ   ‚îú‚îÄ‚îÄ register.ts      # Registration script (direct contract calls)"
  ].

Definition readmeTailLines : list jsstring :=
  [
    u "‚îú‚îÄ‚îÄ .env                 # Environment variables (keep secret!)";
    u "‚îî‚îÄ‚îÄ package.json";
    u "```";
    [];
    u "## Resources";
    [];
    u "- [ERC-8004 Standard](https://eips.ethereum.org/EIPS/eip-8004)";
    u "- [8004scan Explorer](https://www.8004scan.io/)";
    u "- [Monad Docs](https://docs.monad.xyz/)";
    []
  ].

(** The feature-gated sections of the README. *)
Definition a2aSection (hasA2A : bool) : jsstring :=
  if hasA2A then
    join LF
      [ [];
        u "### 5. Start the A2A server";
        [];
        u "```bash";
        u "npm run start:a2a";
        u "```";
        [];
        u "Test locally: http://localhost:3000/.well-known/agent-card.json";
        [] ]
  else [].

Definition mcpSection (hasA2A hasMCP : bool) : jsstring :=
  if hasMCP then
    join LF
      [ [];
        u "### " ++ (if hasA2A then u "6" else u "5") ++ u ". Start the MCP server";
        [];
        u "```bash";
        u "npm run start:mcp";
        u "```";
        [] ]
  else [].

(** The last [src/] line of the directory tree with its two optional
    entries. *)
Definition treeAgentLine (hasA2A hasMCP : bool) : jsstring :=
  u "‚îÇ   ‚îú‚îÄ‚îÄ agent.ts         # LLM logic"
  ++ (if hasA2A then LF ++ u "‚îÇ   ‚îî‚îÄ‚îÄ a2a-server.ts   # A2A server" else [])
  ++ (if hasMCP then LF ++ u "‚îÇ   ‚îî‚îÄ‚îÄ mcp-server.ts   # MCP server" else []).

Definition generateMonadReadme (answers : WizardAnswers) (chain : ChainConfig) : jsstring :=
  let contracts := getMonadContracts (Wizard.chain answers) in
  let hasA2A := hasFeature answers (u "a2a") in
  let hasMCP := hasFeature answers (u "mcp") in
  join LF
    (readmeIntroLines answers chain
     ++ [a2aSection hasA2A ++ mcpSection hasA2A hasMCP]
     ++ readmeContractsLines answers contracts
     ++ [treeAgentLine hasA2A hasMCP]
     ++ readmeTailLines).

End Generators.

(* ===================================================================== *)
(** ** Vocabulary of the properties *)
(* ===================================================================== *)

(** [hay.includes(needle)]. *)
Definition contains (needle hay : jsstring) : Prop :=
  exists pre post, hay = pre ++ needle ++ post.

(** The needles occur in the text one after the other, without overlap. *)
Fixpoint occursInOrder (needles : list jsstring) (hay : jsstring) : Prop :=
  match needles with
  | [] => True
  | n :: ns => exists pre post, hay = pre ++ n ++ post /\ occursInOrder ns post
  end.

(** What follows the first occurrence of [needle] in [hay]. *)
Fixpoint afterFirst (needle hay : jsstring) : option jsstring :=
  if startsWith needle hay then Some (skipn (List.length needle) hay)
  else match hay with
       | [] => None
       | _ :: hay' => afterFirst needle hay'
       end.

(** Search for the needles from left to right. *)
Fixpoint findInOrder (needles : list jsstring) (hay : jsstring) : bool :=
  match needles with
  | [] => true
  | n :: ns =>
    match afterFirst n hay with
    | Some rest => findInOrder ns rest
    | None => false
    end
  end.

(** A text without line feed. *)
Definition noLF (s : jsstring) : bool := forallb (fun c => negb (c =? 10)) s.

(** [line] is one of the lines of [text]. *)
Definition hasLine (line text : jsstring) : Prop := In line (lines text).

Definition hasLineb (line text : jsstring) : bool := existsb (str_eqb line) (lines text).

(** The variables of the environment file, in the order of the template. *)
Definition envVariables : list jsstring :=
  [u "PRIVATE_KEY"; u "RPC_URL"; u "PINATA_JWT"; u "OPENAI_API_KEY"].

(** A line that assigns the variable [v]. *)
Definition assigns (v line : jsstring) : bool := startsWith (v ++ u "=") line.

(** The lines of an environment file that assign one of the variables. *)
Definition assignmentLines (text : jsstring) : list jsstring :=
  filter (fun l => existsb (fun v => assigns v l) envVariables) (lines text).

(** Maximal blocks of characters of one kind: white space ([true]) or not. *)
Fixpoint blocks (s : jsstring) : list (bool * jsstring) :=
  match s with
  | [] => []
  | c :: s' =>
    match blocks s' with
    | (w, b) :: rest =>
      if Bool.eqb w (isWhiteSpace c) then (w, c :: b) :: rest
      else (isWhiteSpace c, [c]) :: (w, b) :: rest
    | [] => [(isWhiteSpace c, [c])]
    end
  end.

(** A hyphen for every block of white space, the other blocks as they are. *)
Definition hyphenate (bl : list (bool * jsstring)) : jsstring :=
  List.concat (map (fun wb : bool * jsstring => if fst wb then u "-" else snd wb) bl).

(** The spec's words for the derived name: every maximal run of white space
    is replaced by a single hyphen, everything else is kept. *)
Definition hyphenateRuns (s : jsstring) : jsstring := hyphenate (blocks s).

(** The headings and directory-tree entries the README gives a feature. *)
Definition a2aHeading : jsstring := u "### 5. Start the A2A server".
Definition mcpHeading (n : jsstring) : jsstring :=
  u "### " ++ n ++ u ". Start the MCP server".
Definition a2aTreeEntry : jsstring := u "‚îÇ   ‚îî‚îÄ‚îÄ a2a-server.ts   # A2A server".
Definition mcpTreeEntry : jsstring := u "‚îÇ   ‚îî‚îÄ‚îÄ mcp-server.ts   # MCP server".

Definition featureLines : list jsstring :=
  [a2aHeading; mcpHeading (u "5"); mcpHeading (u "6"); a2aTreeEntry; mcpTreeEntry].

(** No line of the free text is one of the feature lines. *)
Definition plainText (s : jsstring) : Prop :=
  forall m, In m featureLines -> ~ hasLine m s.

(** The steps of the registration, as they are written in the script. *)
Definition registrationSteps : list jsstring :=
  [ u "const gasEstimate = await publicClient.estimateContractGas({";
    u "functionName: 'register',";
    u "const hash = await walletClient.writeContract({";
    u "functionName: 'register',";
    u "gas: gasEstimate * 120n / 100n, // 20% buffer";
    u "const receipt = await publicClient.waitForTransactionReceipt({ hash });";
    u "if (receipt.status === 'reverted') {";
    u "throw new Error('Transaction reverted');";
    u "let agentId = 'unknown';";
    u "const transferLog = receipt.logs.find(log => log.topics[0] === TRANSFER_SIGNATURE);";
    u "if (transferLog && transferLog.topics[3]) {";
    u "agentId = BigInt(transferLog.topics[3]).toString();";
    u "main().catch((error) => {";
    u "process.exit(1);" ].

(** Answers with another [generatedPrivateKey]. *)
Definition withPrivateKey (k : option jsstring) (a : WizardAnswers) : WizardAnswers :=
  {| projectDir := projectDir a;
     agentName := agentName a;
     agentDescription := agentDescription a;
     agentImage := agentImage a;
     features := features a;
     a2aStreaming := a2aStreaming a;
     chain := Wizard.chain a;
     trustModels := Wizard.trustModels a;
     agentWallet := agentWallet a;
     generatedPrivateKey := k |}.

(* ===================================================================== *)
(** ** Sample inputs *)
(* ===================================================================== *)

Module Samples.

(** [toLowerCase] on ASCII text, where it maps A-Z to a-z and keeps the
    rest. *)
Definition isAsciiUpper (c : char16) : bool := (65 <=? c) && (c <=? 90).

Definition asciiToLowerCase (s : jsstring) : jsstring :=
  map (fun c => if isAsciiUpper c then c + 32 else c) s.

(** The answers of [test-register.ts], with a fixed wallet and key. *)
Definition demoAnswers : WizardAnswers :=
  {| projectDir := u "monad-demo";
     agentName := u "Monad Demo Agent";
     agentDescription := u "Demo agent for Monad testnet - direct contract calls";
     agentImage := u "https://i.imgur.com/JQxM4nO.png";
     features := [u "a2a"; u "mcp"];
     a2aStreaming := false;
     chain := u "monad-testnet";
     trustModels := [u "reputation"];
     agentWallet := u "0x742d35Cc6634C0532925a3b844Bc9e7595f0bEb0";
     generatedPrivateKey := Some (u "0x0123456789abcdef") |}.

Definition withFeatures (fs : list jsstring) (a : WizardAnswers) : WizardAnswers :=
  {| projectDir := projectDir a;
     agentName := agentName a;
     agentDescription := agentDescription a;
     agentImage := agentImage a;
     features := fs;
     a2aStreaming := a2aStreaming a;
     chain := Wizard.chain a;
     trustModels := Wizard.trustModels a;
     agentWallet := agentWallet a;
     generatedPrivateKey := generatedPrivateKey a |}.

Definition withDescription (d : jsstring) (a : WizardAnswers) : WizardAnswers :=
  {| projectDir := projectDir a;
     agentName := agentName a;
     agentDescription := d;
     agentImage := agentImage a;
     features := features a;
     a2aStreaming := a2aStreaming a;
     chain := Wizard.chain a;
     trustModels := Wizard.trustModels a;
     agentWallet := agentWallet a;
     generatedPrivateKey := generatedPrivateKey a |}.

Definition monadTestnet : ChainConfig :=
  {| name := u "Monad Testnet";
     chainId := 10143;
     rpcUrl := u "https://testnet-rpc.monad.xyz";
     scanPath := u "monad-testnet" |}.

(** The end-to-end scenario of the spec: Demo Agent with a2a only. *)
Definition demoAgent (fs : list jsstring) : WizardAnswers :=
  {| projectDir := u "demo-agent";
     agentName := u "Demo Agent";
     agentDescription := u "A demo agent";
     agentImage := u "https://example.com/agent.png";
     features := fs;
     a2aStreaming := false;
     chain := u "monad-testnet";
     trustModels := [u "reputation"];
     agentWallet := u "0x742d35Cc6634C0532925a3b844Bc9e7595f0bEb0";
     generatedPrivateKey := None |}.

(** A key that carries a second line. *)
Definition twoLineKey : jsstring := u "0xabc" ++ LF ++ u "RPC_URL=http://other.example".

(** A description that is itself the A2A heading, with no feature enabled. *)
Definition headingInDescription : WizardAnswers :=
  withDescription a2aHeading (withFeatures [] demoAnswers).

End Samples.

(* ===================================================================== *)
(** ** Contracts of the environment file, the README and the manifest *)
(* ===================================================================== *)

(** The value of PRIVATE_KEY: the generated key when there is one (a
    non-empty string), else the placeholder. *)
Definition presentKey (answers : WizardAnswers) : jsstring :=
  match generatedPrivateKey answers with
  | Some (c :: k) => c :: k
  | _ => u "your_private_key_here"
  end.

(** The environment file assigns the four variables on one line each, in
    the order of [envVariables], with these values. *)
Definition envContract (answers : WizardAnswers) (chain : ChainConfig) : Prop :=
  assignmentLines (generateMonadEnv answers chain) =
  [ u "PRIVATE_KEY=" ++ presentKey answers;
    u "RPC_URL=" ++ rpcUrl chain;
    u "PINATA_JWT=your_pinata_jwt_here";
    u "OPENAI_API_KEY=your_openai_api_key_here" ].

(** The README has the lines of a feature exactly when the feature is
    enabled; the MCP heading is numbered 6 next to the A2A section and 5
    without it. *)
Definition readmeContract (toLowerCase : jsstring -> jsstring)
           (answers : WizardAnswers) (chain : ChainConfig) : Prop :=
  let readme := generateMonadReadme toLowerCase answers chain in
  let hasA2A := hasFeature answers (u "a2a") in
  let hasMCP := hasFeature answers (u "mcp") in
  (hasLine a2aHeading readme <-> hasA2A = true)
  /\ (hasLine (mcpHeading (u "5")) readme <-> hasMCP && negb hasA2A = true)
  /\ (hasLine (mcpHeading (u "6")) readme <-> hasMCP && hasA2A = true)
  /\ (hasLine a2aTreeEntry readme <-> hasA2A = true)
  /\ (hasLine mcpTreeEntry readme <-> hasMCP = true).

(** The manifest has the A2A start script and the express dependency exactly
    when a2a is enabled. *)
Definition manifestContract (answers : WizardAnswers) : Prop :=
  let m := manifestOf answers in
  Rec.get (u "start:a2a") (scripts m)
  = (if hasFeature answers (u "a2a") then Some (u "tsx src/a2a-server.ts") else None)
  /\ Rec.get (u "express") (dependencies m)
     = (if hasFeature answers (u "a2a") then Some (u "^4.18.2") else None).

(** All keys differ. *)
Fixpoint distinct (l : list jsstring) : bool :=
  match l with
  | [] => true
  | x :: l' => negb (includes l' x) && distinct l'
  end.

(* ===================================================================== *)
(** ** Reading string literals back *)
(* ===================================================================== *)

Module Reader.

(** The value of a hexadecimal digit, in either case. *)
Definition hexValue (c : char16) : option N :=
  if (48 <=? c) && (c <=? 57) then Some (c - 48)
  else if (97 <=? c) && (c <=? 102) then Some (c - 87)
  else if (65 <=? c) && (c <=? 70) then Some (c - 55)
  else None.

(** The code unit of the four digits of a [\u] escape. *)
Definition hex4 (h3 h2 h1 h0 : char16) : option char16 :=
  match hexValue h3, hexValue h2, hexValue h1, hexValue h0 with
  | Some a, Some b, Some c, Some d => Some (4096 * a + 256 * b + 16 * c + d)
  | _, _, _, _ => None
  end.

(** The character of a one-letter escape of JSON. *)
Definition simpleEscape (e : char16) : option char16 :=
  if e =? 34 then Some 34
  else if e =? 92 then Some 92
  else if e =? 47 then Some 47
  else if e =? 98 then Some 8
  else if e =? 102 then Some 12
  else if e =? 110 then Some 10
  else if e =? 114 then Some 13
  else if e =? 116 then Some 9
  else None.

Definition consRead (c : char16) (r : option (jsstring * jsstring))
  : option (jsstring * jsstring) :=
  match r with
  | Some (s, rest) => Some (c :: s, rest)
  | None => None
  end.

(** [JSON.parse] on the characters after the opening quote of a string: the
    value of the string and the text after its closing quote. Control
    characters must be escaped; an unknown escape or a missing closing quote
    is an error. *)
Fixpoint readBody (t : jsstring) : option (jsstring * jsstring) :=
  match t with
  | [] => None
  | c :: r =>
    if c =? 34 then Some ([], r)
    else if c =? 92 then
      match r with
      | [] => None
      | e :: r1 =>
        if e =? 117 then
          match r1 with
          | h3 :: h2 :: h1 :: h0 :: r2 =>
            match hex4 h3 h2 h1 h0 with
            | Some x => consRead x (readBody r2)
            | None => None
            end
          | _ => None
          end
        else
          match simpleEscape e with
          | Some x => consRead x (readBody r1)
          | None => None
          end
      end
    else if c <? 32 then None
    else consRead c (readBody r)
  end.

(** A JSON string at the start of a text. *)
Definition readString (t : jsstring) : option (jsstring * jsstring) :=
  match t with
  | c :: r => if c =? 34 then readBody r else None
  | [] => None
  end.

(** How a lexer of ECMAScript reads a double-quoted literal after its opening
    quote: a backslash takes the next character with it, a line feed or
    carriage return that is not taken this way is an error, and the first
    quote that is not taken this way closes the literal. The result is the
    raw text of the literal and the text after the closing quote. *)
Fixpoint scanLiteral (t : jsstring) : option (jsstring * jsstring) :=
  match t with
  | [] => None
  | c :: r =>
    if c =? 34 then Some ([], r)
    else if c =? 92 then
      match r with
      | [] => None
      | e :: r1 => consRead c (consRead e (scanLiteral r1))
      end
    else if (c =? 10) || (c =? 13) then None
    else consRead c (scanLiteral r)
  end.

(** The value of a raw literal whose only escape is backslash-quote. *)
Fixpoint unescapeQuotes (raw : jsstring) : jsstring :=
  match raw with
  | [] => []
  | c :: r =>
    match r with
    | d :: r1 => if (c =? 92) && (d =? 34) then 34 :: unescapeQuotes r1
                 else c :: unescapeQuotes r
    | [] => [c]
    end
  end.

(** A text that can stand in a literal as it is, quotes apart: no
    backslash, no line feed, no carriage return. *)
Definition plainForLiteral (s : jsstring) : bool :=
  forallb (fun c => negb ((c =? 92) || (c =? 10) || (c =? 13))) s.

End Reader.

(* ===================================================================== *)
(** ** The layout of the manifest *)
(* ===================================================================== *)

(** A comma after every line but the last. *)
Fixpoint withCommas (ls : list jsstring) : list jsstring :=
  match ls with
  | [] => []
  | [x] => [x]
  | x :: rest => (x ++ u ",") :: withCommas rest
  end.

(** The lines of the members of an object of strings, four spaces deep. *)
Definition entryLines (o : Rec.t) : list jsstring :=
  withCommas
    (map (fun kv => u "    " ++ JSON.quote (fst kv) ++ u ": " ++ JSON.quote (snd kv)) o).

(** The lines of a manifest, given the literals of its name and
    description: one line per string member, one block per object. *)
Definition manifestLayout (qname qdescription : jsstring) (m : Manifest) : list jsstring :=
  [ u "{";
    u "  " ++ DQ ++ u "name" ++ DQ ++ u ": " ++ qname ++ u ",";
    u "  " ++ DQ ++ u "version" ++ DQ ++ u ": " ++ DQ ++ u "1.0.0" ++ DQ ++ u ",";
    u "  " ++ DQ ++ u "description" ++ DQ ++ u ": " ++ qdescription ++ u ",";
    u "  " ++ DQ ++ u "type" ++ DQ ++ u ": " ++ DQ ++ u "module" ++ DQ ++ u ",";
    u "  " ++ DQ ++ u "scripts" ++ DQ ++ u ": {" ]
  ++ entryLines (scripts m)
  ++ [ u "  },";
       u "  " ++ DQ ++ u "dependencies" ++ DQ ++ u ": {" ]
  ++ entryLines (dependencies m)
  ++ [ u "  },";
       u "  " ++ DQ ++ u "devDependencies" ++ DQ ++ u ": {" ]
  ++ entryLines (devDependencies m)
  ++ [ u "  }";
       u "}" ].

(* ===================================================================== *)
(** ** The A2A server of a generated project *)
(* ===================================================================== *)

(** A [Map] with string keys: the entries in insertion order. *)
Module JSMap.

Definition t (V : Type) : Type := list (jsstring * V).

(** [m.get(k)]. *)
Fixpoint get {V : Type} (k : jsstring) (m : t V) : option V :=
  match m with
  | [] => None
  | (k', v) :: m' => if str_eqb k k' then Some v else get k m'
  end.

(** [m.set(k, v)]: an existing key keeps its place. *)
Fixpoint set {V : Type} (k : jsstring) (v : V) (m : t V) : t V :=
  match m with
  | [] => [(k, v)]
  | (k', v') :: m' => if str_eqb k k' then (k', v) :: m' else (k', v') :: set k v m'
  end.

End JSMap.

Module A2A.

Inductive TaskStatus : Type :=
| submitted | working | input_required | completed | failed | canceled.

Inductive Role : Type := user | agent.

(** A part of a stored message: its [type] is always [text]. *)
Record TextPart : Type := { text : jsstring }.

Record TaskMessage : Type := { role : Role; parts : list TextPart }.

Record Artifact : Type := { artifactName : jsstring; artifactParts : list TextPart }.

(** An entry of [tasks]. *)
Record Task : Type := {
  id : jsstring;
  contextId : jsstring;
  status : TaskStatus;
  messages : list TaskMessage;
  artifacts : list Artifact
}.

(** An entry of a conversation history ([AgentMessage] of [agent.js]): the
    server builds them with role [user] or [assistant]. *)
Record AgentMessage : Type := { agentRole : jsstring; content : jsstring }.

(** The two maps of the server. *)
Record Store : Type := {
  tasks : JSMap.t Task;
  conversationHistory : JSMap.t (list AgentMessage)
}.

Definition emptyStore : Store := {| tasks := []; conversationHistory := [] |}.

(** The request, as far as the handlers read it and with the types the
    handlers declare: a field that is absent, undefined or not a string is
    [None]. *)
Record InPart : Type := { partType : jsstring; partText : option jsstring }.

Record InMessage : Type := { messageRole : jsstring; messageParts : list InPart }.

Record Configuration : Type := { configContextId : option jsstring }.

Record Params : Type := {
  message : option InMessage;
  configuration : option Configuration;
  taskId : option jsstring
}.

(** The [id] of a request: it is copied into the response and never read. *)
Inductive RpcId : Type :=
| IdString (s : jsstring) | IdNumber (n : N) | IdNull | IdUndefined.

(** The body of a POST to [/a2a]: [jsonrpc] is [None] when it is absent or
    not a string, [method] is a string. *)
Record Body : Type := {
  jsonrpc : option jsstring;
  method : jsstring;
  params : option Params;
  requestId : RpcId
}.

(** A thrown [Error] with its message. *)
Inductive Thrown : Type := Error (errorMessage : jsstring).

(** What the calls of one request into the world return: the [k]-th call of
    [uuidv4], and [generateResponse] on the user text and the history, which
    may throw. *)
Record World : Type := {
  uuidv4 : nat -> jsstring;
  generateResponse : jsstring -> list AgentMessage -> Thrown + jsstring
}.

Inductive Payload : Type :=
| Result (task : Task)
| Failure (code : Z) (failureMessage : jsstring).

(** The JSON-RPC response; its [jsonrpc] is always 2.0. *)
Record Response : Type := { payload : Payload; responseId : RpcId }.

Section Server.

(** The message of the [TypeError] of the engine for a read of the property
    (or a destructuring) of [undefined]; the argument names what was read. *)
Variable typeErrorMessage : jsstring -> jsstring.

(** [a || b] on an optional string. *)
Definition orString (a : option jsstring) (b : jsstring) : jsstring :=
  match a with
  | Some (c :: s) => c :: s
  | _ => b
  end.

(** [p.type === text && p.text]. *)
Definition isTextPart (p : InPart) : bool :=
  str_eqb (partType p) (u "text")
  && match partText p with
     | Some (_ :: _) => true
     | _ => false
     end.

Definition textOf (p : InPart) : jsstring :=
  match partText p with
  | Some s => s
  | None => []
  end.

(** [message.parts.filter(...).map(p => p.text).join(LF)]. *)
Definition userTextOf (m : InMessage) : jsstring :=
  join LF (map textOf (filter isTextPart (messageParts m))).

Definition handleMessageSend (w : World) (params : option Params) (st : Store)
  : (Thrown + Task) * Store :=
  match params with
  | None => (inl (Error (typeErrorMessage (u "message"))), st)
  | Some p =>
    let given :=
      match configuration p with
      | Some c => configContextId c
      | None => None
      end in
    let (contextId, calls) :=
      match given with
      | Some (c :: s) => (c :: s, 0%nat)
      | _ => (uuidv4 w 0, 1%nat)
      end in
    let taskId := uuidv4 w calls in
    match message p with
    | None => (inl (Error (typeErrorMessage (u "parts"))), st)
    | Some m =>
      let userText := userTextOf m in
      let history :=
        match JSMap.get contextId (conversationHistory st) with
        | Some h => h
        | None => []
        end in
      match generateResponse w userText history with
      | inl e => (inl e, st)
      | inr responseText =>
        let history :=
          history ++ [ {| agentRole := u "user"; content := userText |};
                       {| agentRole := u "assistant"; content := responseText |} ] in
        let task :=
          {| id := taskId;
             contextId := contextId;
             status := completed;
             messages :=
               [ {| role := user; parts := [ {| text := userText |} ] |};
                 {| role := agent; parts := [ {| text := responseText |} ] |} ];
             artifacts := [] |} in
        (inr task,
         {| tasks := JSMap.set taskId task (tasks st);
            conversationHistory := JSMap.set contextId history (conversationHistory st) |})
      end
    end
  end.

(** [tasks.get(params.taskId)] with the check that follows it. *)
Definition findTask (params : option Params) (st : Store) : Thrown + (jsstring * Task) :=
  match params with
  | None => inl (Error (typeErrorMessage (u "taskId")))
  | Some p =>
    match taskId p with
    | None => inl (Error (u "Task not found"))
    | Some i =>
      match JSMap.get i (tasks st) with
      | Some t => inr (i, t)
      | None => inl (Error (u "Task not found"))
      end
    end
  end.

Definition handleTasksGet (params : option Params) (st : Store) : (Thrown + Task) * Store :=
  match findTask params st with
  | inl e => (inl e, st)
  | inr (_, t) => (inr t, st)
  end.

Definition withStatus (s : TaskStatus) (t : Task) : Task :=
  {| id := id t;
     contextId := contextId t;
     status := s;
     messages := messages t;
     artifacts := artifacts t |}.

(** [task.status = canceled] writes to the object that [tasks] holds. *)
Definition handleTasksCancel (params : option Params) (st : Store)
  : (Thrown + Task) * Store :=
  match findTask params st with
  | inl e => (inl e, st)
  | inr (i, t) =>
    let t' := withStatus canceled t in
    (inr t',
     {| tasks := JSMap.set i t' (tasks st);
        conversationHistory := conversationHistory st |})
  end.

Definition handleMethod (w : World) (method : jsstring) (params : option Params)
           (st : Store) : (Thrown + Task) * Store :=
  if str_eqb method (u "message/send") then handleMessageSend w params st
  else if str_eqb method (u "tasks/get") then handleTasksGet params st
  else if str_eqb method (u "tasks/cancel") then handleTasksCancel params st
  else (inl (Error (u "Method not found: " ++ method)), st).

(** The handler of [POST /a2a], after the payment middleware has let the
    request through; the body is an object. *)
Definition postA2A (w : World) (body : Body) (st : Store) : Response * Store :=
  match
    match jsonrpc body with
    | Some v => str_eqb v (u "2.0")
    | None => false
    end
  with
  | false =>
    ({| payload := Failure (-32600)%Z (u "Invalid Request"); responseId := requestId body |}, st)
  | true =>
    match handleMethod w (method body) (params body) st with
    | (inr result, st') => ({| payload := Result result; responseId := requestId body |}, st')
    | (inl (Error m), st') =>
      ({| payload := Failure (-32603)%Z (orString (Some m) (u "Internal error"));
          responseId := requestId body |}, st')
    end
  end.

(** The requests of a run, each with what its calls into the world return,
    handled one after the other: no request is handled while another one
    waits for [generateResponse]. *)
Fixpoint serve (requests : list (World * Body)) (st : Store) : list Response * Store :=
  match requests with
  | [] => ([], st)
  | (w, body) :: rest =>
    let (r, st') := postA2A w body st in
    let (rs, st'') := serve rest st' in
    (r :: rs, st'')
  end.

End Server.

(** *** Vocabulary for the properties of the server *)

(** [configuration?.contextId]. *)
Definition givenContext (p : Params) : option jsstring :=
  match configuration p with
  | Some c => configContextId c
  | None => None
  end.

(** The context a [message/send] with parameters [p] works in, and the id of
    the task it makes: the call of [uuidv4] for the task is the second one
    when the context needed the first. *)
Definition contextOf (w : World) (p : Params) : jsstring :=
  orString (givenContext p) (uuidv4 w 0).

Definition newTaskId (w : World) (p : Params) : jsstring :=
  match givenContext p with
  | Some (_ :: _) => uuidv4 w 0
  | _ => uuidv4 w 1
  end.

(** The history of a context: empty when the context is unknown. *)
Definition historyOf (c : jsstring) (st : Store) : list AgentMessage :=
  match JSMap.get c (conversationHistory st) with
  | Some h => h
  | None => []
  end.

(** A question and its answer, as entries of a history and as the messages
    of a task. *)
Definition exchange (q a : jsstring) : list AgentMessage :=
  [ {| agentRole := u "user"; content := q |};
    {| agentRole := u "assistant"; content := a |} ].

Definition exchangeMessages (q a : jsstring) : list TaskMessage :=
  [ {| role := user; parts := [ {| text := q |} ] |};
    {| role := agent; parts := [ {| text := a |} ] |} ].

Definition exchangeTask (i c q a : jsstring) : Task :=
  {| id := i;
     contextId := c;
     status := completed;
     messages := exchangeMessages q a;
     artifacts := [] |}.

(** What holds of a task [t] stored under the key [k]: the key is its id, it
    is completed or canceled, it has no artifacts, its messages are one
    question and its answer, and the history of its context has that
    exchange. *)
Definition storedTask (st : Store) (k : jsstring) (t : Task) : Prop :=
  id t = k
  /\ (status t = completed \/ status t = canceled)
  /\ artifacts t = []
  /\ exists q a,
       messages t = exchangeMessages q a
       /\ exists h1 h2, historyOf (contextId t) st = h1 ++ exchange q a ++ h2.

(** A history is a sequence of exchanges. *)
Definition exchanges (h : list AgentMessage) : Prop :=
  exists qas : list (jsstring * jsstring),
    h = flat_map (fun qa => exchange (fst qa) (snd qa)) qas.

Definition wellFormed (st : Store) : Prop :=
  (forall k t, JSMap.get k (tasks st) = Some t -> storedTask st k t)
  /\ (forall c h, JSMap.get c (conversationHistory st) = Some h -> exchanges h).

(** The response to a request, and the store after it. *)
Definition responseTo (r : Response * Store) : Response := fst r.

Definition storeAfter (r : Response * Store) : Store := snd r.

End A2A.

(** Sample worlds and requests of the server. *)
Module A2ASamples.
Import A2A.

Definition typeErrorMessage (property : jsstring) : jsstring :=
  u "Cannot read properties of undefined (reading '" ++ property ++ u "')".

(** A world whose agent answers every text with the text after [re: ]. *)
Definition echoWorld : World :=
  {| uuidv4 := fun k => match k with O => u "uuid-a" | _ => u "uuid-b" end;
     generateResponse := fun q _ => inr (u "re: " ++ q) |}.

(** A world whose agent fails. *)
Definition failingWorld : World :=
  {| uuidv4 := uuidv4 echoWorld;
     generateResponse := fun _ _ => inl (Error (u "model unavailable")) |}.

Definition textPart (s : jsstring) : InPart :=
  {| partType := u "text"; partText := Some s |}.

Definition filePart : InPart := {| partType := u "file"; partText := None |}.

Definition sendParams (c : option jsstring) (ps : list InPart) : Params :=
  {| message := Some {| messageRole := u "user"; messageParts := ps |};
     configuration := Some {| configContextId := c |};
     taskId := None |}.

Definition taskParams (i : jsstring) : Params :=
  {| message := None; configuration := None; taskId := Some i |}.

Definition request (m : jsstring) (p : Params) (i : N) : Body :=
  {| jsonrpc := Some (u "2.0"); method := m; params := Some p; requestId := IdNumber i |}.

Definition hello : Body :=
  request (u "message/send") (sendParams None [textPart (u "hello")]) 1.

Definition helloTask : Task :=
  exchangeTask (u "uuid-b") (u "uuid-a") (u "hello") (u "re: hello").

Definition helloParams : Params := sendParams None [textPart (u "hello")].

Definition helloMessage : InMessage :=
  {| messageRole := u "user"; messageParts := [textPart (u "hello")] |}.

(** A second message in the context of [hello]. *)
Definition againParams : Params := sendParams (Some (u "uuid-a")) [textPart (u "again")].

Definition againMessage : InMessage :=
  {| messageRole := u "user"; messageParts := [textPart (u "again")] |}.

Definition again : Body := request (u "message/send") againParams 2.

Definition getHello : Body := request (u "tasks/get") (taskParams (u "uuid-b")) 3.

Definition cancelHello : Body := request (u "tasks/cancel") (taskParams (u "uuid-b")) 4.

Definition listTasks : Body := request (u "tasks/list") (taskParams (u "uuid-b")) 5.

(** The store after [hello] from the empty store. *)
Definition afterHello : Store :=
  storeAfter (postA2A typeErrorMessage echoWorld hello emptyStore).

End A2ASamples.

(* ===================================================================== *)
(** ** Lemmas on strings, joins and lines *)
(* ===================================================================== *)

Lemma str_eqb_eq (a b : jsstring) : str_eqb a b = true <-> a = b.
Proof.
  revert b; induction a as [|x a IH]; intros [|y b]; simpl; split; intro H;
    try reflexivity; try discriminate.
  - apply andb_true_iff in H as [Hx Hr].
    apply N.eqb_eq in Hx; apply IH in Hr; congruence.
  - injection H as -> ->. rewrite N.eqb_refl; simpl. now apply IH.
Qed.

Lemma str_eqb_refl (a : jsstring) : str_eqb a a = true.
Proof. now apply str_eqb_eq. Qed.

Lemma str_eqb_neq (a b : jsstring) : str_eqb a b = false <-> a <> b.
Proof.
  split.
  - intros H E. apply str_eqb_eq in E. congruence.
  - intros H. destruct (str_eqb a b) eqn:E; [|reflexivity].
    apply str_eqb_eq in E. contradiction.
Qed.

Lemma includes_In (l : list jsstring) (x : jsstring) :
  includes l x = true <-> In x l.
Proof.
  unfold includes. rewrite existsb_exists. split.
  - intros (y & Hy & E). apply str_eqb_eq in E. now subst.
  - intros H. exists x. split; [assumption | apply str_eqb_refl].
Qed.

(** [hasFeature] is membership in [features]. *)
Lemma hasFeature_In (answers : WizardAnswers) (feature : jsstring) :
  hasFeature answers feature = true <-> In feature (features answers).
Proof. apply includes_In. Qed.

Lemma join_cons (sep x : jsstring) (l : list jsstring) :
  l <> [] -> join sep (x :: l) = x ++ sep ++ join sep l.
Proof. destruct l; [congruence | reflexivity]. Qed.

Lemma join_app (sep : jsstring) (l1 l2 : list jsstring) :
  l1 <> [] -> l2 <> [] ->
  join sep (l1 ++ l2) = join sep l1 ++ sep ++ join sep l2.
Proof.
  intros H1 H2. induction l1 as [|x l1 IH]; [congruence|].
  destruct l1 as [|y l1].
  - simpl app. now rewrite join_cons.
  - change ((x :: y :: l1) ++ l2) with (x :: ((y :: l1) ++ l2)).
    rewrite join_cons by discriminate.
    rewrite IH by discriminate.
    rewrite (join_cons sep x (y :: l1)) by discriminate.
    now rewrite <- !app_assoc.
Qed.

Lemma contains_refl (s : jsstring) : contains s s.
Proof. exists [], []. now rewrite app_nil_r. Qed.

Lemma contains_app_l (n a b : jsstring) : contains n a -> contains n (a ++ b).
Proof.
  intros (p & q & ->). exists p, (q ++ b). now rewrite <- !app_assoc.
Qed.

Lemma contains_app_r (n a b : jsstring) : contains n b -> contains n (a ++ b).
Proof.
  intros (p & q & ->). exists (a ++ p), q. now rewrite <- !app_assoc.
Qed.

Lemma contains_trans (a b c : jsstring) : contains a b -> contains b c -> contains a c.
Proof.
  intros (p & q & ->) (p' & q' & ->).
  exists (p' ++ p), (q ++ q'). now rewrite <- !app_assoc.
Qed.

(** A run of consecutive elements of a joined list is a part of the text. *)
Lemma contains_join_run (sep : jsstring) (a b c : list jsstring) :
  b <> [] -> contains (join sep b) (join sep (a ++ b ++ c)).
Proof.
  intros Hb.
  assert (Hbc : contains (join sep b) (join sep (b ++ c))).
  { destruct c as [|z c].
    - rewrite app_nil_r. apply contains_refl.
    - rewrite join_app by (assumption || discriminate).
      apply contains_app_l, contains_refl. }
  destruct a as [|x a]; [exact Hbc|].
  rewrite join_app; [| discriminate | destruct b; [congruence | discriminate]].
  now apply contains_app_r, contains_app_r.
Qed.

Lemma contains_join_elem (sep x : jsstring) (l : list jsstring) :
  In x l -> contains x (join sep l).
Proof.
  intros H. apply in_split in H as (a & c & ->).
  apply (contains_join_run sep a [x] c). discriminate.
Qed.

Lemma lines_nonempty (s : jsstring) : lines s <> [].
Proof.
  induction s as [|c s IH]; simpl; [discriminate|].
  destruct (c =? 10); [discriminate|]. destruct (lines s); discriminate.
Qed.

Lemma lines_app_cons (a b : jsstring) : lines (a ++ 10 :: b) = lines a ++ lines b.
Proof.
  induction a as [|c a IH]; [reflexivity|].
  simpl. rewrite IH. destruct (c =? 10); [reflexivity|].
  pose proof (lines_nonempty a) as Hn. destruct (lines a); [congruence | reflexivity].
Qed.

Lemma lines_app_LF (a b : jsstring) : lines (a ++ LF ++ b) = lines a ++ lines b.
Proof. apply lines_app_cons. Qed.

Lemma lines_noLF (s : jsstring) : noLF s = true -> lines s = [s].
Proof.
  induction s as [|c s IH]; [reflexivity|]. simpl. intros H.
  apply andb_true_iff in H as [Hc Hs]. apply negb_true_iff in Hc.
  rewrite Hc, (IH Hs). reflexivity.
Qed.

Lemma lines_join (l : list jsstring) :
  l <> [] -> lines (join LF l) = flat_map lines l.
Proof.
  induction l as [|x l IH]; [congruence|]. intros _.
  destruct l as [|y l].
  - simpl. now rewrite app_nil_r.
  - rewrite join_cons by discriminate. rewrite lines_app_LF.
    rewrite IH by discriminate. reflexivity.
Qed.

Lemma noLF_app (a b : jsstring) : noLF (a ++ b) = noLF a && noLF b.
Proof. apply forallb_app. Qed.

Lemma hasLineb_true (m s : jsstring) : hasLineb m s = true <-> hasLine m s.
Proof.
  unfold hasLineb, hasLine. rewrite existsb_exists. split.
  - intros (y & Hy & E). apply str_eqb_eq in E. now subst.
  - intros H. exists m. split; [assumption | apply str_eqb_refl].
Qed.

Lemma hasLineb_false (m s : jsstring) : hasLineb m s = false -> ~ hasLine m s.
Proof. intros H Hl. apply hasLineb_true in Hl. congruence. Qed.

(** A text put behind a one-line prefix: its first line gets the prefix. *)
Lemma lines_prefix (p s : jsstring) :
  noLF p = true ->
  lines (p ++ s) =
  match lines s with
  | l :: ls => (p ++ l) :: ls
  | [] => [p]
  end.
Proof.
  intros Hp. induction p as [|c p IH].
  - simpl. pose proof (lines_nonempty s). now destruct (lines s).
  - simpl in Hp. apply andb_true_iff in Hp as [Hc Hp].
    apply negb_true_iff in Hc. simpl. rewrite Hc, (IH Hp).
    now destruct (lines s).
Qed.

(** A text put before a one-line suffix: its last line gets the suffix. *)
Lemma lines_suffix (s q : jsstring) :
  noLF q = true ->
  lines (s ++ q) = removelast (lines s) ++ [last (lines s) [] ++ q].
Proof.
  intros Hq. induction s as [|c s IH].
  - simpl. now apply lines_noLF.
  - pose proof (lines_nonempty s) as Hn.
    simpl. rewrite IH. destruct (c =? 10).
    + destruct (lines s) as [|l ls]; [congruence | reflexivity].
    + destruct (lines s) as [|l [|x ls]]; [congruence | reflexivity | reflexivity].
Qed.

Lemma in_removelast (A : Type) (x : A) (l : list A) : In x (removelast l) -> In x l.
Proof.
  induction l as [|y [|z l] IH]; simpl; [tauto | tauto |].
  intros [-> | H]; [now left | right; now apply IH].
Qed.

Lemma in_lines_prefix (p s m : jsstring) :
  noLF p = true -> hasLine m (p ++ s) ->
  startsWith p m = true \/ hasLine m s.
Proof.
  unfold hasLine. intros Hp. rewrite (lines_prefix p s Hp).
  destruct (lines s) as [|l ls].
  - intros [<- | []]. left. clear. induction p; simpl; [reflexivity|].
    now rewrite N.eqb_refl.
  - intros [<- | H]; [left | right; now right].
    clear. induction p; simpl; [reflexivity|]. now rewrite N.eqb_refl.
Qed.

Lemma in_lines_suffix (s q m : jsstring) :
  noLF q = true -> hasLine m (s ++ q) ->
  startsWith (rev q) (rev m) = true \/ hasLine m s.
Proof.
  unfold hasLine. intros Hq. rewrite (lines_suffix s q Hq).
  rewrite in_app_iff. intros [H | [<- | []]].
  - right. now apply in_removelast.
  - left. rewrite rev_app_distr. generalize (rev q) as r. clear.
    induction r; simpl; [reflexivity|]. now rewrite N.eqb_refl.
Qed.

(* ===================================================================== *)
(** ** Contract selection *)
(* ===================================================================== *)

(** C1: [getMonadContracts] returns the mainnet pair of [MONAD_CONTRACTS]
    exactly for the chain [monad-mainnet] and the testnet pair for every other
    chain string, recognized or not; the result is always one of the two
    literal pairs of the table. *)
Theorem getMonadContracts_selects_tier (chain : jsstring) :
  (chain = u "monad-mainnet" -> getMonadContracts chain = mainnet MONAD_CONTRACTS)
  /\ (chain <> u "monad-mainnet" -> getMonadContracts chain = testnet MONAD_CONTRACTS)
  /\ (getMonadContracts chain =
        {| identityRegistry := u "0x8004A169FB4a3325136EB29fA0ceB6D2e539a432";
           reputationRegistry := u "0x8004BAa17C55a88189AE136b182e5fdA19dE9b63" |}
      \/ getMonadContracts chain =
        {| identityRegistry := u "0x8004A818BFB912233c491871b3d84c89A494BD9e";
           reputationRegistry := u "0x8004B663056A597Dffe9eCcC1965A193B7388713" |}).
Proof.
  unfold getMonadContracts.
  destruct (str_eqb chain (u "monad-mainnet")) eqn:E.
  - apply str_eqb_eq in E.
    split; [intros _; reflexivity|]. split; [intros H; contradiction|].
    left. reflexivity.
  - apply str_eqb_neq in E.
    split; [intros H; contradiction|]. split; [intros _; reflexivity|].
    right. reflexivity.
Qed.

Lemma getMonadContracts_selects_tier_witness :
  getMonadContracts (u "monad-mainnet") = mainnet MONAD_CONTRACTS
  /\ getMonadContracts (u "monad-testnet") = testnet MONAD_CONTRACTS
  /\ getMonadContracts (u "base-sepolia") = testnet MONAD_CONTRACTS.
Proof.
  split; [| split].
  - apply (proj1 (getMonadContracts_selects_tier (u "monad-mainnet"))).
    reflexivity.
  - apply (proj1 (proj2 (getMonadContracts_selects_tier (u "monad-testnet")))).
    intros H; vm_compute in H; discriminate H.
  - apply (proj1 (proj2 (getMonadContracts_selects_tier (u "base-sepolia")))).
    intros H; vm_compute in H; discriminate H.
Defined.

(* ===================================================================== *)
(** ** The environment template: the private key *)
(* ===================================================================== *)

(** Evaluate the literals of the goal to their code units. *)
Ltac eval_literals :=
  repeat match goal with
         | |- context [u ?s] =>
           let v := eval vm_compute in (u s) in change (u s) with v
         end.

Lemma privateKeyValueOf_empty (answers : WizardAnswers) :
  generatedPrivateKey answers = Some [] \/ generatedPrivateKey answers = None ->
  privateKeyValueOf answers = u "your_private_key_here".
Proof. unfold privateKeyValueOf. intros [-> | ->]; reflexivity. Qed.

(** C9: a [generatedPrivateKey] that is present but empty is falsy: the
    template is the one of an absent key, and its PRIVATE_KEY line carries the
    placeholder. *)
Theorem empty_private_key_gives_placeholder (answers : WizardAnswers) (chain : ChainConfig) :
  generatedPrivateKey answers = Some [] ->
  generateMonadEnv answers chain = generateMonadEnv (withPrivateKey None answers) chain
  /\ exists rest,
       generateMonadEnv answers chain =
       u "# Required for registration" ++ LF
         ++ u "PRIVATE_KEY=your_private_key_here" ++ LF ++ rest.
Proof.
  intros H. unfold generateMonadEnv.
  rewrite (privateKeyValueOf_empty answers) by now left.
  rewrite (privateKeyValueOf_empty (withPrivateKey None answers)) by now right.
  split; [reflexivity|].
  unfold envLines.
  rewrite join_cons by discriminate. rewrite join_cons by discriminate.
  eexists. eval_literals. cbn [app]. reflexivity.
Qed.

Lemma empty_private_key_gives_placeholder_witness :
  generateMonadEnv (withPrivateKey (Some []) Samples.demoAnswers) Samples.monadTestnet
  = generateMonadEnv (withPrivateKey None (withPrivateKey (Some []) Samples.demoAnswers))
      Samples.monadTestnet
  /\ exists rest,
       generateMonadEnv (withPrivateKey (Some []) Samples.demoAnswers) Samples.monadTestnet =
       u "# Required for registration" ++ LF
         ++ u "PRIVATE_KEY=your_private_key_here" ++ LF ++ rest.
Proof.
  apply (empty_private_key_gives_placeholder
           (withPrivateKey (Some []) Samples.demoAnswers) Samples.monadTestnet).
  reflexivity.
Defined.

(* ===================================================================== *)
(** ** The registration script: agent metadata *)
(* ===================================================================== *)

Section RegisterScript.

Variable toLowerCase : jsstring -> jsstring.

Lemma script_contains_metadata_line (answers : WizardAnswers) (chain : ChainConfig)
      (line : jsstring) :
  In line (agentConfigurationLines answers
             (servicesCodeOf (servicesOf toLowerCase answers)) (trustModelsOf answers)) ->
  contains line (generateMonadRegisterScript toLowerCase answers chain).
Proof.
  intros H. unfold generateMonadRegisterScript.
  apply contains_join_elem.
  rewrite !in_app_iff. tauto.
Qed.

Lemma escapeQuotes_app (a b : jsstring) :
  escapeQuotes (a ++ b) = escapeQuotes a ++ escapeQuotes b.
Proof. unfold escapeQuotes, replaceAllChar. apply flat_map_app. Qed.

Lemma servicesOf_cases (answers : WizardAnswers) :
  servicesOf toLowerCase answers =
  (if hasFeature answers (u "a2a")
   then [join LF (a2aServiceLines (slugify toLowerCase (agentName answers)))] else [])
  ++ (if hasFeature answers (u "mcp")
      then [join LF (mcpServiceLines (slugify toLowerCase (agentName answers)))] else []).
Proof.
  unfold servicesOf.
  destruct (hasFeature answers (u "a2a")), (hasFeature answers (u "mcp")); reflexivity.
Qed.


(** C10: [agentImage] and the elements of [trustModels] are put into the
    script as they are: the text between the quotes of the image line is
    [agentImage], and the [supportedTrust] list is the elements, each between
    two quotes, joined by comma and space. *)
Theorem register_script_image_and_trust_verbatim
        (answers : WizardAnswers) (chain : ChainConfig) :
  let script := generateMonadRegisterScript toLowerCase answers chain in
  contains (u "  image: " ++ DQ ++ agentImage answers ++ DQ ++ u ",") script
  /\ contains (u "  supportedTrust: ["
                 ++ join (u ", ") (map (fun t => DQ ++ t ++ DQ) (Wizard.trustModels answers))
                 ++ u "],") script.
Proof.
  cbv zeta. split.
  - apply script_contains_metadata_line. unfold agentConfigurationLines.
    do 8 right. left. reflexivity.
  - apply script_contains_metadata_line. unfold agentConfigurationLines.
    do 13 right. left. reflexivity.
Qed.

End RegisterScript.

(* ===================================================================== *)
(** ** The registration script: the order of the steps *)
(* ===================================================================== *)

Lemma startsWith_app (p s : jsstring) : startsWith p (p ++ s) = true.
Proof. induction p; simpl; [reflexivity|]. now rewrite N.eqb_refl. Qed.

Lemma startsWith_skipn (p s : jsstring) :
  startsWith p s = true -> s = p ++ skipn (List.length p) s.
Proof.
  revert s; induction p as [|x p IH]; intros [|y s]; simpl; intros H;
    try reflexivity; try discriminate.
  apply andb_true_iff in H as [Hx Hr]. apply N.eqb_eq in Hx. subst y.
  f_equal. now apply IH.
Qed.

Lemma afterFirst_sound (n hay rest : jsstring) :
  afterFirst n hay = Some rest -> exists pre, hay = pre ++ n ++ rest.
Proof.
  induction hay as [|c hay IH]; simpl.
  - destruct (startsWith n []) eqn:E; [|discriminate].
    intros [= <-]. exists []. now apply startsWith_skipn.
  - destruct (startsWith n (c :: hay)) eqn:E.
    + intros [= <-]. exists []. now apply startsWith_skipn.
    + intros H. destruct (IH H) as [pre ->]. now exists (c :: pre).
Qed.

Lemma findInOrder_sound (ns : list jsstring) :
  forall hay, findInOrder ns hay = true -> occursInOrder ns hay.
Proof.
  induction ns as [|n ns IH]; intros hay; simpl; [trivial|].
  destruct (afterFirst n hay) as [rest|] eqn:E; [|discriminate].
  intros H. destruct (afterFirst_sound _ _ _ E) as [pre ->].
  exists pre, rest. split; [reflexivity | now apply IH].
Qed.

Lemma occursInOrder_app_r (ns : list jsstring) :
  forall hay post, occursInOrder ns hay -> occursInOrder ns (hay ++ post).
Proof.
  induction ns as [|n ns IH]; intros hay post; simpl; [trivial|].
  intros (pre & p & -> & H). exists pre, (p ++ post). split.
  - now rewrite <- !app_assoc.
  - now apply IH.
Qed.

Lemma occursInOrder_app_l (ns : list jsstring) (pre hay : jsstring) :
  occursInOrder ns hay -> occursInOrder ns (pre ++ hay).
Proof.
  destruct ns as [|n ns]; simpl; [trivial|].
  intros (p & q & -> & H). exists (pre ++ p), q. split; [|assumption].
  now rewrite <- !app_assoc.
Qed.

(** Steps found in two consecutive parts of a text are found, in order, in
    the whole. *)
Lemma occursInOrder_app (a b : list jsstring) :
  forall t1 t2, occursInOrder a t1 -> occursInOrder b t2 ->
                occursInOrder (a ++ b) (t1 ++ t2).
Proof.
  induction a as [|n a IH]; intros t1 t2; simpl.
  - intros _ H. now apply occursInOrder_app_l.
  - intros (pre & p & -> & Ha) Hb. exists pre, (p ++ t2). split.
    + now rewrite <- !app_assoc.
    + now apply IH.
Qed.

Lemma app_nonempty_l (A : Type) (a b : list A) : a <> [] -> a ++ b <> [].
Proof. destruct a; [congruence | discriminate]. Qed.

Lemma app_nonempty_r (A : Type) (a b : list A) : b <> [] -> a ++ b <> [].
Proof. destruct a, b; try congruence; discriminate. Qed.

Lemma join_tail_split (n : nat) (pre r s : list jsstring) :
  pre <> [] -> r <> [] -> firstn n s <> [] -> skipn n s <> [] ->
  join LF (pre ++ r ++ s) =
  (join LF pre ++ LF) ++ join LF r
    ++ (LF ++ join LF (firstn n s) ++ LF) ++ join LF (skipn n s).
Proof.
  intros Hp Hr Hf Hs.
  rewrite join_app by (assumption || now apply app_nonempty_l).
  rewrite join_app by (assumption || (rewrite <- (firstn_skipn n s); now apply app_nonempty_l)).
  rewrite <- (firstn_skipn n s) at 1.
  rewrite join_app by assumption.
  now rewrite <- !app_assoc.
Qed.

(** The script ends with the registration part and the summary, whatever the
    inputs are. *)
Lemma register_script_tail (toLowerCase : jsstring -> jsstring)
      (answers : WizardAnswers) (chain : ChainConfig) :
  exists before,
    generateMonadRegisterScript toLowerCase answers chain =
    before ++ join LF registrationLines
      ++ (LF ++ join LF (firstn 9 (summaryLines chain)) ++ LF)
      ++ join LF (skipn 9 (summaryLines chain)).
Proof.
  unfold generateMonadRegisterScript.
  set (contracts := contractConfigurationLines _).
  set (agent := agentConfigurationLines _ _ _).
  replace (scriptHeaderLines ++ chainDefinitionLines chain ++ contracts ++ agent
             ++ ipfsUploadLines ++ mainSetupLines chain
             ++ registrationLines ++ summaryLines chain)
    with ((scriptHeaderLines ++ chainDefinitionLines chain ++ contracts ++ agent
             ++ ipfsUploadLines ++ mainSetupLines chain)
            ++ registrationLines ++ summaryLines chain)
    by (now rewrite <- !app_assoc).
  rewrite (join_tail_split 9) by discriminate.
  eexists. reflexivity.
Qed.

(** C6: in the text of the script the steps of the registration follow one
    another: the gas estimate for a [register] call, the [register]
    transaction with gas [gasEstimate * 120n / 100n], the wait for the
    receipt, the error thrown on a reverted receipt, the agent id set to
    [unknown], then read from [topics[3]] of the transfer log when there is
    one, and the handler that ends the process with status 1 on an error. *)
Theorem register_script_steps_in_order (toLowerCase : jsstring -> jsstring)
        (answers : WizardAnswers) (chain : ChainConfig) :
  occursInOrder registrationSteps (generateMonadRegisterScript toLowerCase answers chain).
Proof.
  destruct (register_script_tail toLowerCase answers chain) as [before ->].
  apply occursInOrder_app_l.
  change registrationSteps with (firstn 12 registrationSteps ++ skipn 12 registrationSteps).
  apply occursInOrder_app.
  - apply findInOrder_sound. vm_compute. reflexivity.
  - apply occursInOrder_app_l. apply findInOrder_sound. vm_compute. reflexivity.
Qed.

(* ===================================================================== *)
(** ** The environment template: one line per variable *)
(* ===================================================================== *)

Lemma privateKeyValueOf_present (answers : WizardAnswers) :
  privateKeyValueOf answers = presentKey answers.
Proof.
  unfold privateKeyValueOf, presentKey, orElse.
  destruct (generatedPrivateKey answers) as [[|c k]|]; reflexivity.
Qed.

Lemma presentKey_noLF (answers : WizardAnswers) :
  (forall k, generatedPrivateKey answers = Some k -> noLF k = true) ->
  noLF (presentKey answers) = true.
Proof.
  unfold presentKey. intros H.
  destruct (generatedPrivateKey answers) as [[|c k]|]; try reflexivity.
  now apply H.
Qed.

(** The lines of the template when no value brings a line feed. *)
Lemma env_lines (answers : WizardAnswers) (chain : ChainConfig) :
  noLF (presentKey answers) = true ->
  noLF (name chain) = true ->
  noLF (rpcUrl chain) = true ->
  lines (generateMonadEnv answers chain) = envLines (presentKey answers) chain.
Proof.
  intros Hk Hn Hr. unfold generateMonadEnv.
  rewrite privateKeyValueOf_present.
  rewrite lines_join by discriminate.
  unfold envLines. cbn [flat_map].
  rewrite !lines_noLF; try reflexivity;
    rewrite noLF_app; apply andb_true_iff; split; (reflexivity || assumption).
Qed.

(** C4, as amended: when the key, the chain name and the RPC URL have no
    line feed, the environment file assigns PRIVATE_KEY, RPC_URL, PINATA_JWT
    and OPENAI_API_KEY on one line each, in this order; the PRIVATE_KEY value
    is the generated key when there is one, else the placeholder, RPC_URL is
    the chain's URL and the other two are placeholders. *)
Theorem env_template_assignments (answers : WizardAnswers) (chain : ChainConfig) :
  (forall k, generatedPrivateKey answers = Some k -> noLF k = true) ->
  noLF (name chain) = true ->
  noLF (rpcUrl chain) = true ->
  envContract answers chain.
Proof.
  intros Hk Hn Hr. unfold envContract, assignmentLines.
  rewrite env_lines by (assumption || now apply presentKey_noLF).
  unfold envLines, envVariables, assigns.
  eval_literals. cbn. reflexivity.
Qed.

Lemma env_template_assignments_witness :
  envContract Samples.demoAnswers Samples.monadTestnet.
Proof.
  apply (env_template_assignments Samples.demoAnswers Samples.monadTestnet).
  - intros k H. injection H as <-. vm_compute. reflexivity.
  - vm_compute. reflexivity.
  - vm_compute. reflexivity.
Defined.

(** C4 as stated fails: a key with a second line gives the file a second
    line that assigns RPC_URL. *)
Lemma env_template_two_line_key :
  assignmentLines
    (generateMonadEnv (withPrivateKey (Some Samples.twoLineKey) Samples.demoAnswers)
       Samples.monadTestnet)
  = [ u "PRIVATE_KEY=0xabc";
      u "RPC_URL=http://other.example";
      u "RPC_URL=https://testnet-rpc.monad.xyz";
      u "PINATA_JWT=your_pinata_jwt_here";
      u "OPENAI_API_KEY=your_openai_api_key_here" ]
  /\ ~ envContract (withPrivateKey (Some Samples.twoLineKey) Samples.demoAnswers)
        Samples.monadTestnet.
Proof.
  split; [vm_compute; reflexivity|].
  unfold envContract. intros H. vm_compute in H. discriminate H.
Qed.

(* ===================================================================== *)
(** ** Purity *)
(* ===================================================================== *)

(** The generators are modelled as functions because the source reads its
    arguments and module constants only. What each of them reads: *)
Lemma generateMonadPackageJson_reads (toLowerCase : jsstring -> jsstring)
      (a1 a2 : WizardAnswers) :
  agentName a1 = agentName a2 ->
  agentDescription a1 = agentDescription a2 ->
  hasFeature a1 (u "a2a") = hasFeature a2 (u "a2a") ->
  hasFeature a1 (u "mcp") = hasFeature a2 (u "mcp") ->
  generateMonadPackageJson toLowerCase a1 = generateMonadPackageJson toLowerCase a2.
Proof.
  intros Hn Hd Ha Hm. unfold generateMonadPackageJson, manifestOf.
  now rewrite Hn, Hd, Ha, Hm.
Qed.

Lemma generateMonadEnv_reads (a1 a2 : WizardAnswers) (c1 c2 : ChainConfig) :
  generatedPrivateKey a1 = generatedPrivateKey a2 ->
  name c1 = name c2 -> rpcUrl c1 = rpcUrl c2 ->
  generateMonadEnv a1 c1 = generateMonadEnv a2 c2.
Proof.
  intros Hk Hn Hr. unfold generateMonadEnv, privateKeyValueOf, envLines.
  now rewrite Hk, Hn, Hr.
Qed.

Lemma generateMonadRegisterScript_reads (toLowerCase : jsstring -> jsstring)
      (a1 a2 : WizardAnswers) (c : ChainConfig) :
  agentName a1 = agentName a2 ->
  agentDescription a1 = agentDescription a2 ->
  agentImage a1 = agentImage a2 ->
  Wizard.chain a1 = Wizard.chain a2 ->
  Wizard.trustModels a1 = Wizard.trustModels a2 ->
  hasFeature a1 (u "a2a") = hasFeature a2 (u "a2a") ->
  hasFeature a1 (u "mcp") = hasFeature a2 (u "mcp") ->
  generateMonadRegisterScript toLowerCase a1 c = generateMonadRegisterScript toLowerCase a2 c.
Proof.
  intros Hn Hd Hi Hc Ht Ha Hm.
  unfold generateMonadRegisterScript, servicesOf, trustModelsOf, agentConfigurationLines.
  now rewrite Hn, Hd, Hi, Hc, Ht, Ha, Hm.
Qed.

Lemma generateMonadReadme_reads (toLowerCase : jsstring -> jsstring)
      (a1 a2 : WizardAnswers) (c1 c2 : ChainConfig) :
  agentName a1 = agentName a2 ->
  agentDescription a1 = agentDescription a2 ->
  agentWallet a1 = agentWallet a2 ->
  Wizard.chain a1 = Wizard.chain a2 ->
  hasFeature a1 (u "a2a") = hasFeature a2 (u "a2a") ->
  hasFeature a1 (u "mcp") = hasFeature a2 (u "mcp") ->
  name c1 = name c2 ->
  generateMonadReadme toLowerCase a1 c1 = generateMonadReadme toLowerCase a2 c2.
Proof.
  intros Hn Hd Hw Hc Ha Hm Hcn.
  unfold generateMonadReadme, readmeIntroLines, readmeContractsLines.
  now rewrite Hn, Hd, Hw, Hc, Ha, Hm, Hcn.
Qed.



(* ===================================================================== *)
(** ** The package name *)
(* ===================================================================== *)

Lemma hyphen_not_whitespace : Forall (fun c => isWhiteSpace c = false) (u "-").
Proof. repeat constructor. Qed.

Lemma replaceWsFrom_In (rep s : jsstring) (c : char16) :
  forall inRun, In c (replaceWsFrom inRun rep s) -> In c rep \/ (In c s /\ isWhiteSpace c = false).
Proof.
  induction s as [|x s IH]; intros inRun; simpl; [tauto|].
  destruct (isWhiteSpace x) eqn:E.
  - rewrite in_app_iff. intros [H | H].
    + destruct inRun; [destruct H | now left].
    + destruct (IH _ H) as [? | [? ?]]; [now left | right; split; [now right | assumption]].
  - intros [<- | H]; [right; split; [now left | assumption] |].
    destruct (IH _ H) as [? | [? ?]]; [now left | right; split; [now right | assumption]].
Qed.

(** The replacement leaves no white space behind. *)
Lemma replaceWhitespaceRuns_no_whitespace (s : jsstring) :
  Forall (fun c => isWhiteSpace c = false) (replaceWhitespaceRuns (u "-") s).
Proof.
  apply Forall_forall. intros c H. apply replaceWsFrom_In in H as [H | [_ H]].
  - pose proof hyphen_not_whitespace as Hh. rewrite Forall_forall in Hh. now apply Hh.
  - assumption.
Qed.

Lemma hyphenate_cons (w : bool) (b : jsstring) (bl : list (bool * jsstring)) :
  hyphenate ((w, b) :: bl) = (if w then u "-" else b) ++ hyphenate bl.
Proof. reflexivity. Qed.

(** The scan of the regular expression and the replacement of maximal blocks
    agree, both at the start of a match and inside one. *)
Lemma replaceWsFrom_blocks (s : jsstring) :
  replaceWsFrom false (u "-") s = hyphenate (blocks s)
  /\ replaceWsFrom true (u "-") s =
     match blocks s with
     | (true, _) :: rest => hyphenate rest
     | bl => hyphenate bl
     end.
Proof.
  induction s as [|c s [IH1 IH2]]; [split; reflexivity|].
  simpl replaceWsFrom. simpl blocks.
  destruct (isWhiteSpace c) eqn:Ec.
  - rewrite IH2. destruct (blocks s) as [|[[|] b] rest]; simpl Bool.eqb; cbv iota;
      rewrite ?hyphenate_cons; split; reflexivity.
  - rewrite IH1. destruct (blocks s) as [|[[|] b] rest]; simpl Bool.eqb; cbv iota;
      rewrite ?hyphenate_cons; split; reflexivity.
Qed.

(** The code's replacement is the spec's: every maximal run of white space
    becomes one hyphen. *)
Lemma replaceWhitespaceRuns_hyphenateRuns (s : jsstring) :
  replaceWhitespaceRuns (u "-") s = hyphenateRuns s.
Proof. apply (proj1 (replaceWsFrom_blocks s)). Qed.

(** The blocks are a partition of the text ... *)
Lemma blocks_concat (s : jsstring) : List.concat (map snd (blocks s)) = s.
Proof.
  induction s as [|c s IH]; [reflexivity|]. simpl.
  destruct (blocks s) as [|[w b] rest]; [now rewrite <- IH|].
  destruct (Bool.eqb w (isWhiteSpace c)); simpl in *; now rewrite IH.
Qed.

(** ... into non-empty blocks of one kind ... *)
Lemma blocks_homogeneous (s : jsstring) :
  Forall (fun wb => snd wb <> [] /\ Forall (fun c => isWhiteSpace c = fst wb) (snd wb))
         (blocks s).
Proof.
  induction s as [|c s IH]; [constructor|]. simpl.
  destruct (blocks s) as [|[w b] rest].
  - repeat constructor. discriminate.
  - inversion IH as [|? ? [Hne Hb] Hrest]; subst.
    destruct (Bool.eqb w (isWhiteSpace c)) eqn:E.
    + apply eqb_prop in E. constructor; [|assumption]. split; [discriminate|].
      constructor; [now rewrite E | assumption].
    + constructor; [|assumption]. split; [discriminate|]. repeat constructor.
Qed.

(** ... that are maximal: neighbours are of different kinds. *)
Lemma blocks_maximal (s : jsstring) (pre post : list (bool * jsstring))
      (w1 w2 : bool) (b1 b2 : jsstring) :
  blocks s = pre ++ (w1, b1) :: (w2, b2) :: post -> w1 <> w2.
Proof.
  revert pre w1 b1. induction s as [|c s IH]; intros pre w1 b1; simpl.
  - destruct pre; discriminate.
  - destruct (blocks s) as [|[w b] rest] eqn:E.
    + destruct pre as [|? [|? ?]]; discriminate.
    + destruct (Bool.eqb w (isWhiteSpace c)) eqn:Ew.
      * destruct pre as [|p pre]; simpl; intros H.
        -- injection H as Hw _ Hrest. rewrite Hrest, Hw in IH.
           apply (IH [] w1 b). reflexivity.
        -- injection H as _ Hrest. rewrite Hrest in IH.
           apply (IH ((w, b) :: pre) w1 b1). reflexivity.
      * destruct pre as [|p pre]; simpl; intros H.
        -- injection H as Hw1 _ Hw2 _ _. subst w1 w2.
           intros Heq. rewrite <- Heq, eqb_reflx in Ew. discriminate.
        -- injection H as _ Hrest. apply (IH pre w1 b1). exact Hrest.
Qed.

Lemma hexDigit_not_whitespace (d : N) : d < 16 -> isWhiteSpace (JSON.hexDigit d) = false.
Proof.
  intros H. unfold JSON.hexDigit.
  assert (Hd : d = 0 \/ d = 1 \/ d = 2 \/ d = 3 \/ d = 4 \/ d = 5 \/ d = 6 \/ d = 7
               \/ d = 8 \/ d = 9 \/ d = 10 \/ d = 11 \/ d = 12 \/ d = 13 \/ d = 14
               \/ d = 15) by lia.
  repeat (destruct Hd as [-> | Hd]; [reflexivity|]). subst. reflexivity.
Qed.

Lemma nibble_lt (c : N) (k : N) : N.land (N.shiftr c k) 15 < 16.
Proof.
  change 15 with (N.ones 4). rewrite N.land_ones. apply N.mod_lt. discriminate.
Qed.

Lemma unicodeEscape_not_whitespace (c : char16) :
  c < 65536 -> Forall (fun x => isWhiteSpace x = false) (JSON.unicodeEscape c).
Proof.
  intros Hc. unfold JSON.unicodeEscape.
  change (BSLASH ++ u "u") with [92; 117]. cbn [app].
  repeat constructor; try apply hexDigit_not_whitespace; try apply nibble_lt.
  - rewrite N.shiftr_div_pow2. apply N.Div0.div_lt_upper_bound. exact Hc.
  - change (N.land c 15) with (N.land (N.shiftr c 0) 15). apply nibble_lt.
Qed.

Lemma quoteUnit_not_whitespace (c : char16) :
  isWhiteSpace c = false ->
  Forall (fun x => isWhiteSpace x = false) (JSON.quoteUnit c).
Proof.
  intros Hc. unfold JSON.quoteUnit.
  repeat match goal with
         | |- context [if ?x =? ?k then _ else _] =>
           destruct (x =? k); [repeat constructor |]
         end.
  destruct ((c <? 32) || JSON.isHighSurrogate c || JSON.isLowSurrogate c) eqn:E.
  - apply unicodeEscape_not_whitespace.
    unfold JSON.isHighSurrogate, JSON.isLowSurrogate in E.
    repeat (apply orb_true_iff in E; destruct E as [E | E]).
    + apply N.ltb_lt in E. lia.
    + apply andb_true_iff in E as [_ E]. apply N.leb_le in E. lia.
    + apply andb_true_iff in E as [_ E]. apply N.leb_le in E. lia.
  - repeat constructor. assumption.
Qed.

(** The JSON string literal of a text without white space has none either. *)
Lemma quote_not_whitespace (s : jsstring) :
  Forall (fun c => isWhiteSpace c = false) s ->
  Forall (fun c => isWhiteSpace c = false) (JSON.quote s).
Proof.
  intros H. unfold JSON.quote.
  assert (Hb : Forall (fun c => isWhiteSpace c = false) (JSON.quoteBody s)).
  { assert (Hn : forall n t, (List.length t <= n)%nat ->
                       Forall (fun c => isWhiteSpace c = false) t ->
                       Forall (fun c => isWhiteSpace c = false) (JSON.quoteBody t)).
    { induction n as [|n IH]; intros [|c t] Hl Ht; try constructor;
        simpl in Hl; [lia|].
      inversion Ht as [|? ? Hc Ht']; subst. simpl.
      destruct (JSON.isHighSurrogate c).
      - destruct t as [|d t].
        + now apply quoteUnit_not_whitespace.
        + inversion Ht' as [|? ? Hd Ht'']; subst.
          destruct (JSON.isLowSurrogate d).
          * constructor; [assumption|]. constructor; [assumption|].
            apply IH; [simpl in Hl; lia | assumption].
          * apply Forall_app. split; [now apply quoteUnit_not_whitespace|].
            apply IH; [simpl in Hl |- *; lia | assumption].
      - apply Forall_app. split; [now apply quoteUnit_not_whitespace|].
        apply IH; [lia | assumption]. }
    apply (Hn (List.length s)); [lia | assumption]. }
  apply Forall_app. split; [repeat constructor|].
  apply Forall_app. split; [assumption | repeat constructor].
Qed.

Section PackageName.

Variable toLowerCase : jsstring -> jsstring.

(** The manifest text starts with the name member. *)
Lemma package_json_starts_with_name (answers : WizardAnswers) :
  exists rest,
    generateMonadPackageJson toLowerCase answers =
    u "{" ++ LF ++ u "  " ++ DQ ++ u "name" ++ DQ ++ u ": "
      ++ JSON.quote (slugify toLowerCase (agentName answers)) ++ u "," ++ LF ++ rest.
Proof.
  unfold generateMonadPackageJson, JSON.stringify2.
  cbn [JSON.serialize map fst snd].
  rewrite join_cons by discriminate.
  change (JSON.quote (u "name")) with (DQ ++ u "name" ++ DQ).
  eexists. rewrite <- !app_assoc. cbn [app].
  eval_literals. cbn [app]. unfold DQ, LF. cbn [app]. reflexivity.
Qed.

(** Upper case: any class of characters that lower-casing leaves none of
    and that the hyphen is not in. *)
Variable isUpperCase : char16 -> bool.
Hypothesis toLowerCase_lower :
  forall s c, In c (toLowerCase s) -> isUpperCase c = false.
Hypothesis hyphen_lower : isUpperCase 45 = false.

(** C5: the name member of the manifest is the JSON string of [agentName]
    lower-cased with every maximal run of white space replaced by one hyphen;
    it has no upper-case character and no white space, and its literal in the
    text has no white space either. Mixed case and white space in [agentName]
    are not needed for this. *)
Theorem package_name_is_slug (answers : WizardAnswers) :
  let pkgName := slugify toLowerCase (agentName answers) in
  (exists rest,
      generateMonadPackageJson toLowerCase answers =
      u "{" ++ LF ++ u "  " ++ DQ ++ u "name" ++ DQ ++ u ": "
        ++ JSON.quote pkgName ++ u "," ++ LF ++ rest)
  /\ pkgName = hyphenateRuns (toLowerCase (agentName answers))
  /\ Forall (fun c => isWhiteSpace c = false) pkgName
  /\ Forall (fun c => isUpperCase c = false) pkgName
  /\ Forall (fun c => isWhiteSpace c = false) (JSON.quote pkgName).
Proof.
  cbv zeta. split; [apply package_json_starts_with_name|].
  split; [apply replaceWhitespaceRuns_hyphenateRuns|].
  split; [apply replaceWhitespaceRuns_no_whitespace|].
  split.
  - apply Forall_forall. intros c H. unfold slugify, replaceWhitespaceRuns in H.
    apply replaceWsFrom_In in H as [[<- | []] | [H _]].
    + exact hyphen_lower.
    + exact (toLowerCase_lower _ _ H).
  - apply quote_not_whitespace, replaceWhitespaceRuns_no_whitespace.
Qed.

End PackageName.

Lemma asciiToLowerCase_lower (s : jsstring) (c : char16) :
  In c (Samples.asciiToLowerCase s) -> Samples.isAsciiUpper c = false.
Proof.
  unfold Samples.asciiToLowerCase. rewrite in_map_iff. intros (x & <- & _).
  unfold Samples.isAsciiUpper.
  destruct ((65 <=? x) && (x <=? 90)) eqn:E; [|assumption].
  apply andb_true_iff in E as [E1 E2]. apply N.leb_le in E1, E2.
  apply andb_false_iff. right. apply N.leb_gt. lia.
Qed.

Lemma package_name_is_slug_witness :
  let pkgName := slugify Samples.asciiToLowerCase (agentName Samples.demoAnswers) in
  (exists rest,
      generateMonadPackageJson Samples.asciiToLowerCase Samples.demoAnswers =
      u "{" ++ LF ++ u "  " ++ DQ ++ u "name" ++ DQ ++ u ": "
        ++ JSON.quote pkgName ++ u "," ++ LF ++ rest)
  /\ pkgName = hyphenateRuns (Samples.asciiToLowerCase (agentName Samples.demoAnswers))
  /\ Forall (fun c => isWhiteSpace c = false) pkgName
  /\ Forall (fun c => Samples.isAsciiUpper c = false) pkgName
  /\ Forall (fun c => isWhiteSpace c = false) (JSON.quote pkgName).
Proof.
  apply (package_name_is_slug Samples.asciiToLowerCase Samples.isAsciiUpper
           asciiToLowerCase_lower).
  vm_compute. reflexivity.
Defined.

(* ===================================================================== *)
(** ** The manifest: entries added by the features *)
(* ===================================================================== *)

Lemma distinct_NoDup (l : list jsstring) : distinct l = true -> NoDup l.
Proof.
  induction l as [|x l IH]; simpl; [constructor|].
  intros H. apply andb_true_iff in H as [Hx Hl]. constructor.
  - intros Hin. apply includes_In in Hin. rewrite Hin in Hx. discriminate.
  - now apply IH.
Qed.


(* ===================================================================== *)
(** ** The README: sections and tree entries of the features *)
(* ===================================================================== *)

Lemma manifest_a2a_entries (answers : WizardAnswers) : manifestContract answers.
Proof.
  unfold manifestContract, manifestOf. cbv zeta.
  destruct (hasFeature answers (u "a2a")), (hasFeature answers (u "mcp"));
    split; vm_compute; reflexivity.
Qed.

Lemma not_in_flat_map_lines (m : jsstring) (l : list jsstring) :
  Forall (fun b => ~ hasLine m b) l -> ~ In m (flat_map lines l).
Proof.
  intros H Hin. apply in_flat_map in Hin as (b & Hb & Hm).
  rewrite Forall_forall in H. exact (H b Hb Hm).
Qed.

Lemma not_hasLine_prefix (p s m : jsstring) :
  noLF p = true -> startsWith p m = false -> ~ hasLine m s -> ~ hasLine m (p ++ s).
Proof.
  intros Hp Hs Hn H. apply in_lines_prefix in H as [H | H]; [congruence | tauto | assumption].
Qed.

Lemma not_hasLine_suffix (s q m : jsstring) :
  noLF q = true -> startsWith (rev q) (rev m) = false -> ~ hasLine m s ->
  ~ hasLine m (s ++ q).
Proof.
  intros Hq Hs Hn H. apply in_lines_suffix in H as [H | H]; [congruence | tauto | assumption].
Qed.

(** A text without white space is one line without white space. *)
Lemma hasLine_no_whitespace (m s : jsstring) :
  Forall (fun c => isWhiteSpace c = false) s -> hasLine m s ->
  forallb (fun c => negb (isWhiteSpace c)) m = true.
Proof.
  intros Hs. unfold hasLine. rewrite lines_noLF.
  - intros [<- | []]. apply forallb_forall. intros c Hc.
    rewrite Forall_forall in Hs. now rewrite (Hs c Hc).
  - unfold noLF. apply forallb_forall. intros c Hc.
    rewrite Forall_forall in Hs. specialize (Hs c Hc).
    destruct (c =? 10) eqn:E; [|reflexivity].
    apply N.eqb_eq in E. subst c. discriminate Hs.
Qed.

Section Readme.

Variable toLowerCase : jsstring -> jsstring.
Variable answers : WizardAnswers.
Variable chain : ChainConfig.

Hypothesis plain_name : plainText (agentName answers).
Hypothesis plain_description : plainText (agentDescription answers).
Hypothesis plain_wallet : plainText (agentWallet answers).
Hypothesis plain_chain : plainText (name chain).

Lemma slug_line (m : jsstring) :
  forallb (fun c => negb (isWhiteSpace c)) m = false ->
  startsWith (rev (u "/")) (rev m) = false ->
  ~ hasLine m (slugify toLowerCase (agentName answers) ++ u "/").
Proof.
  intros Hw Hs. apply not_hasLine_suffix; [reflexivity | assumption |].
  intros H. apply hasLine_no_whitespace in H; [congruence|].
  apply replaceWhitespaceRuns_no_whitespace.
Qed.

(** The line is not in a part of the template: a literal, a free text
    between literals, or the root of the directory tree. *)
Ltac not_a_line :=
  first
    [ apply hasLineb_false; vm_compute; reflexivity
    | apply slug_line; vm_compute; reflexivity
    | repeat first
             [ apply not_hasLine_prefix; [vm_compute; reflexivity | vm_compute; reflexivity |]
             | apply not_hasLine_suffix; [vm_compute; reflexivity | vm_compute; reflexivity |] ];
      assumption ].

Ltac no_line_of l :=
  apply not_in_flat_map_lines; unfold l;
  repeat (apply Forall_cons; [not_a_line |]); apply Forall_nil.

(** No feature line is in the parts of the README that every project gets. *)
Lemma readme_common_parts (m : jsstring) :
  In m featureLines ->
  ~ In m (flat_map lines (readmeIntroLines answers chain))
  /\ ~ In m (flat_map lines
               (readmeContractsLines toLowerCase answers
                  (getMonadContracts (Wizard.chain answers))))
  /\ ~ In m (flat_map lines readmeTailLines).
Proof.
  intros Hm.
  pose proof (plain_name m Hm) as Hname.
  pose proof (plain_description m Hm) as Hdescription.
  pose proof (plain_wallet m Hm) as Hwallet.
  pose proof (plain_chain m Hm) as Hchain.
  unfold getMonadContracts.
  destruct (str_eqb (Wizard.chain answers) (u "monad-mainnet"));
    unfold featureLines in Hm; cbn [In] in Hm;
    repeat (destruct Hm as [<- | Hm]; [split; [| split] |]); try contradiction.
  all: first [ no_line_of readmeIntroLines
             | no_line_of readmeContractsLines
             | no_line_of readmeTailLines ].
Qed.

Lemma readme_lines_cases (m : jsstring) :
  hasLine m (generateMonadReadme toLowerCase answers chain) <->
  In m (flat_map lines (readmeIntroLines answers chain))
  \/ hasLine m (a2aSection (hasFeature answers (u "a2a"))
                 ++ mcpSection (hasFeature answers (u "a2a")) (hasFeature answers (u "mcp")))
  \/ In m (flat_map lines
             (readmeContractsLines toLowerCase answers
                (getMonadContracts (Wizard.chain answers))))
  \/ hasLine m (treeAgentLine (hasFeature answers (u "a2a")) (hasFeature answers (u "mcp")))
  \/ In m (flat_map lines readmeTailLines).
Proof.
  unfold hasLine, generateMonadReadme. cbv zeta.
  rewrite lines_join by (apply app_nonempty_l; discriminate).
  rewrite !flat_map_app, !in_app_iff. cbn [flat_map]. rewrite !app_nil_r.
  reflexivity.
Qed.

(** A feature line is in the README exactly when it is in one of the two
    feature-gated parts. *)
Lemma readme_feature_parts (m : jsstring) :
  In m featureLines ->
  hasLine m (generateMonadReadme toLowerCase answers chain) <->
  hasLineb m (a2aSection (hasFeature answers (u "a2a"))
                ++ mcpSection (hasFeature answers (u "a2a")) (hasFeature answers (u "mcp")))
  || hasLineb m (treeAgentLine (hasFeature answers (u "a2a")) (hasFeature answers (u "mcp")))
  = true.
Proof.
  intros Hm. destruct (readme_common_parts m Hm) as (H1 & H2 & H3).
  rewrite readme_lines_cases, orb_true_iff, !hasLineb_true. tauto.
Qed.


End Readme.

Lemma plainText_check (s : jsstring) :
  forallb (fun m => negb (hasLineb m s)) featureLines = true -> plainText s.
Proof.
  intros H m Hm Hl. rewrite forallb_forall in H. specialize (H m Hm).
  apply hasLineb_true in Hl. rewrite Hl in H. discriminate.
Qed.



(** The scenario of the spec: Demo Agent with a2a has the start script, the
    express dependency and the A2A section; without features it has none of
    them. *)
Example demo_agent_scenario :
  (Rec.get (u "start:a2a") (scripts (manifestOf (Samples.demoAgent [u "a2a"])))
     = Some (u "tsx src/a2a-server.ts")
   /\ Rec.get (u "express") (dependencies (manifestOf (Samples.demoAgent [u "a2a"])))
      = Some (u "^4.18.2")
   /\ hasLineb a2aHeading
        (generateMonadReadme Samples.asciiToLowerCase (Samples.demoAgent [u "a2a"])
           Samples.monadTestnet) = true)
  /\ (Rec.get (u "start:a2a") (scripts (manifestOf (Samples.demoAgent []))) = None
      /\ Rec.get (u "express") (dependencies (manifestOf (Samples.demoAgent []))) = None
      /\ hasLineb a2aHeading
           (generateMonadReadme Samples.asciiToLowerCase (Samples.demoAgent [])
              Samples.monadTestnet) = false).
Proof. repeat split; vm_compute; reflexivity. Qed.

(** The package name of the sample: lower case, one hyphen per run. *)
Example demo_agent_slug :
  slugify Samples.asciiToLowerCase (u "Monad  Demo Agent") = u "monad-demo-agent".
Proof. vm_compute. reflexivity. Qed.

(* ===================================================================== *)
(** ** The manifest reads back *)
(* ===================================================================== *)

Lemma hexValue_hexDigit (d : N) : d < 16 -> Reader.hexValue (JSON.hexDigit d) = Some d.
Proof.
  intros H.
  assert (Hd : d = 0 \/ d = 1 \/ d = 2 \/ d = 3 \/ d = 4 \/ d = 5 \/ d = 6 \/ d = 7
               \/ d = 8 \/ d = 9 \/ d = 10 \/ d = 11 \/ d = 12 \/ d = 13 \/ d = 14
               \/ d = 15) by lia.
  repeat (destruct Hd as [-> | Hd]; [reflexivity|]). subst. reflexivity.
Qed.

Lemma nibbles (c : N) :
  c < 65536 ->
  4096 * N.shiftr c 12 + 256 * N.land (N.shiftr c 8) 15
  + 16 * N.land (N.shiftr c 4) 15 + N.land c 15 = c.
Proof.
  intros H. change 15 with (N.ones 4). rewrite !N.land_ones, !N.shiftr_div_pow2.
  change (2 ^ 12) with 4096. change (2 ^ 8) with 256. change (2 ^ 4) with 16.
  assert (E8 : c / 256 = c / 16 / 16) by (now rewrite N.Div0.div_div).
  assert (E12 : c / 4096 = c / 16 / 16 / 16) by (now rewrite !N.Div0.div_div).
  rewrite E8, E12.
  pose proof (N.div_mod c 16 ltac:(discriminate)) as H0.
  pose proof (N.div_mod (c / 16) 16 ltac:(discriminate)) as H1.
  pose proof (N.div_mod (c / 16 / 16) 16 ltac:(discriminate)) as H2.
  assert (H3 : c / 16 / 16 / 16 < 16).
  { rewrite <- E12. apply N.Div0.div_lt_upper_bound. exact H. }
  rewrite <- (N.mod_small _ 16 H3) at 1.
  pose proof (N.div_mod (c / 16 / 16 / 16) 16 ltac:(discriminate)) as H4.
  rewrite (N.div_small _ 16 H3) in H4.
  lia.
Qed.

Lemma read_unicode (h3 h2 h1 h0 : char16) (t : jsstring) :
  Reader.readBody (92 :: 117 :: h3 :: h2 :: h1 :: h0 :: t) =
  match Reader.hex4 h3 h2 h1 h0 with
  | Some x => Reader.consRead x (Reader.readBody t)
  | None => None
  end.
Proof. reflexivity. Qed.

Lemma read_quoteUnit (c : char16) (t : jsstring) :
  Reader.readBody (JSON.quoteUnit c ++ t) = Reader.consRead c (Reader.readBody t).
Proof.
  unfold JSON.quoteUnit.
  destruct (c =? 8) eqn:E8; [apply N.eqb_eq in E8; subst; reflexivity|].
  destruct (c =? 9) eqn:E9; [apply N.eqb_eq in E9; subst; reflexivity|].
  destruct (c =? 10) eqn:E10; [apply N.eqb_eq in E10; subst; reflexivity|].
  destruct (c =? 12) eqn:E12; [apply N.eqb_eq in E12; subst; reflexivity|].
  destruct (c =? 13) eqn:E13; [apply N.eqb_eq in E13; subst; reflexivity|].
  destruct (c =? 34) eqn:E34; [apply N.eqb_eq in E34; subst; reflexivity|].
  destruct (c =? 92) eqn:E92; [apply N.eqb_eq in E92; subst; reflexivity|].
  destruct ((c <? 32) || JSON.isHighSurrogate c || JSON.isLowSurrogate c) eqn:E.
  - assert (Hc : c < 65536).
    { unfold JSON.isHighSurrogate, JSON.isLowSurrogate in E.
      repeat (apply orb_true_iff in E; destruct E as [E | E]).
      - apply N.ltb_lt in E. lia.
      - apply andb_true_iff in E as [_ E]. apply N.leb_le in E. lia.
      - apply andb_true_iff in E as [_ E]. apply N.leb_le in E. lia. }
    unfold JSON.unicodeEscape.
    change ((BSLASH ++ u "u" ++ ?l) ++ t) with (92 :: 117 :: l ++ t). cbn [app].
    rewrite read_unicode. unfold Reader.hex4.
    rewrite !hexValue_hexDigit.
    + now rewrite (nibbles c Hc).
    + change (N.land c 15) with (N.land (N.shiftr c 0) 15). apply nibble_lt.
    + apply nibble_lt.
    + apply nibble_lt.
    + rewrite N.shiftr_div_pow2. apply N.Div0.div_lt_upper_bound. exact Hc.
  - apply orb_false_iff in E as [E _]. apply orb_false_iff in E as [E _].
    cbn [app Reader.readBody]. now rewrite E34, E92, E.
Qed.

Lemma read_raw_surrogate (c : char16) (t : jsstring) :
  55296 <= c ->
  Reader.readBody (c :: t) = Reader.consRead c (Reader.readBody t).
Proof.
  intros H. cbn [Reader.readBody].
  destruct (c =? 34) eqn:E1; [apply N.eqb_eq in E1; lia|].
  destruct (c =? 92) eqn:E2; [apply N.eqb_eq in E2; lia|].
  destruct (c <? 32) eqn:E3; [apply N.ltb_lt in E3; lia|].
  reflexivity.
Qed.

Lemma read_quoteBody (n : nat) :
  forall s rest, (List.length s <= n)%nat ->
    Reader.readBody (JSON.quoteBody s ++ DQ ++ rest) = Some (s, rest).
Proof.
  induction n as [|n IH]; intros [|c s] rest Hl; try reflexivity; simpl in Hl; [lia|].
  simpl JSON.quoteBody.
  destruct (JSON.isHighSurrogate c) eqn:Eh.
  - destruct s as [|d s].
    + rewrite read_quoteUnit. reflexivity.
    + destruct (JSON.isLowSurrogate d) eqn:El.
      * unfold JSON.isHighSurrogate in Eh. unfold JSON.isLowSurrogate in El.
        apply andb_true_iff in Eh as [Eh _]. apply andb_true_iff in El as [El _].
        apply N.leb_le in Eh, El.
        change ((c :: d :: JSON.quoteBody s) ++ DQ ++ rest)
          with (c :: d :: (JSON.quoteBody s ++ DQ ++ rest)).
        rewrite read_raw_surrogate by lia. rewrite read_raw_surrogate by lia.
        rewrite IH by (simpl in Hl; lia). reflexivity.
      * rewrite <- app_assoc, read_quoteUnit.
        rewrite IH by (simpl in Hl |- *; lia). reflexivity.
  - rewrite <- app_assoc, read_quoteUnit. rewrite IH by lia. reflexivity.
Qed.

(** What [JSON.stringify] writes for a string is read back by [JSON.parse]
    as that string, whatever it holds and whatever follows. *)
Lemma json_string_round_trip (s rest : jsstring) :
  Reader.readString (JSON.quote s ++ rest) = Some (s, rest).
Proof.
  unfold JSON.quote. rewrite <- !app_assoc.
  change (Reader.readString (DQ ++ JSON.quoteBody s ++ DQ ++ rest))
    with (Reader.readBody (JSON.quoteBody s ++ DQ ++ rest)).
  now apply (read_quoteBody (List.length s)).
Qed.

Lemma hexDigit_not_LF (d : N) : negb (JSON.hexDigit d =? 10) = true.
Proof.
  unfold JSON.hexDigit. destruct (d <? 10); apply negb_true_iff, N.eqb_neq; lia.
Qed.

Lemma quoteUnit_noLF (c : char16) : noLF (JSON.quoteUnit c) = true.
Proof.
  unfold JSON.quoteUnit.
  repeat match goal with
         | |- context [if ?x =? ?k then _ else _] =>
           destruct (x =? k) eqn:?; [reflexivity |]
         end.
  destruct ((c <? 32) || JSON.isHighSurrogate c || JSON.isLowSurrogate c).
  - unfold JSON.unicodeEscape.
    change (BSLASH ++ u "u" ++ ?l) with (92 :: 117 :: l).
    unfold noLF. cbn [forallb]. now rewrite !hexDigit_not_LF.
  - unfold noLF. cbn [forallb].
    match goal with H : (c =? 10) = false |- _ => now rewrite H end.
Qed.

Lemma quoteBody_noLF (n : nat) :
  forall s, (List.length s <= n)%nat -> noLF (JSON.quoteBody s) = true.
Proof.
  induction n as [|n IH]; intros [|c s] Hl; try reflexivity; simpl in Hl; [lia|].
  simpl JSON.quoteBody.
  destruct (JSON.isHighSurrogate c) eqn:Eh.
  - destruct s as [|d s]; [apply quoteUnit_noLF|].
    destruct (JSON.isLowSurrogate d) eqn:El.
    + unfold JSON.isHighSurrogate in Eh. unfold JSON.isLowSurrogate in El.
      apply andb_true_iff in Eh as [Eh _]. apply andb_true_iff in El as [El _].
      apply N.leb_le in Eh, El.
      unfold noLF. cbn [forallb].
      replace (c =? 10) with false by (symmetry; apply N.eqb_neq; lia).
      replace (d =? 10) with false by (symmetry; apply N.eqb_neq; lia).
      apply IH. simpl in Hl. lia.
    + rewrite noLF_app, quoteUnit_noLF. apply IH. simpl in Hl |- *. lia.
  - rewrite noLF_app, quoteUnit_noLF. apply IH. lia.
Qed.

(** A JSON string literal is one line. *)
Lemma quote_noLF (s : jsstring) : noLF (JSON.quote s) = true.
Proof.
  unfold JSON.quote. rewrite !noLF_app.
  now rewrite (quoteBody_noLF (List.length s) s (le_n _)).
Qed.

Lemma flat_map_lines_noLF (l : list jsstring) :
  forallb noLF l = true -> flat_map lines l = l.
Proof.
  induction l as [|x l IH]; [reflexivity|]. cbn [forallb flat_map].
  intros H. apply andb_true_iff in H as [Hx Hl].
  now rewrite (lines_noLF x Hx), (IH Hl).
Qed.

(** Evaluate the closed parts of a text that is built around free texts. *)
Ltac eval_closed_texts :=
  repeat match goal with
         | |- context [u ?s] =>
           let v := eval vm_compute in (u s) in change (u s) with v
         end;
  repeat match goal with
         | |- context [JSON.quote (?c :: ?l)] =>
           let v := eval vm_compute in (JSON.quote (c :: l)) in
           change (JSON.quote (c :: l)) with v
         | |- context [JSON.serialize ?g ?i (Rec.toJSON ?o)] =>
           let v := eval vm_compute in (JSON.serialize g i (Rec.toJSON o)) in
           change (JSON.serialize g i (Rec.toJSON o)) with v
         | |- context [entryLines ?o] =>
           let v := eval vm_compute in (entryLines o) in
           change (entryLines o) with v
         end.

Ltac normalize_text :=
  unfold LF, DQ; cbn [app join];
  repeat (rewrite <- !app_assoc; cbn [app join]).

Lemma manifest_text_layout (a m : bool) (n d : jsstring) :
  let mf := (if m then addMCP else fun x => x) ((if a then addA2A else fun x => x) baseManifest) in
  JSON.stringify2
    (JSON.Obj
       [ (u "name", JSON.Str n);
         (u "version", JSON.Str (u "1.0.0"));
         (u "description", JSON.Str d);
         (u "type", JSON.Str (u "module"));
         (u "scripts", Rec.toJSON (scripts mf));
         (u "dependencies", Rec.toJSON (dependencies mf));
         (u "devDependencies", Rec.toJSON (devDependencies mf)) ])
  = join LF (manifestLayout (JSON.quote n) (JSON.quote d) mf)
  /\ forallb noLF (manifestLayout (JSON.quote n) (JSON.quote d) mf) = true.
Proof.
  intros mf. pose proof (quote_noLF n) as Hqn. pose proof (quote_noLF d) as Hqd.
  unfold JSON.stringify2, manifestLayout. cbn [JSON.serialize map fst snd].
  revert Hqn Hqd. generalize (JSON.quote n) as qn, (JSON.quote d) as qd.
  intros qn qd Hqn Hqd. subst mf. split.
  - destruct a, m; eval_closed_texts; normalize_text; reflexivity.
  - rewrite !forallb_app. cbn [forallb]. rewrite !noLF_app, Hqn, Hqd.
    destruct a, m; vm_compute; reflexivity.
Qed.

(** X1: the lines of the manifest are fixed by the features: a line for each
    of name, version, description and type, then the three objects with a
    line per entry; [agentName] and [agentDescription] stay on their own
    line whatever they hold, and what stands on the two lines is read back
    by [JSON.parse] as the derived name and as [agentDescription]. *)
Theorem manifest_layout (toLowerCase : jsstring -> jsstring) (answers : WizardAnswers) :
  lines (generateMonadPackageJson toLowerCase answers) =
  manifestLayout (JSON.quote (slugify toLowerCase (agentName answers)))
                 (JSON.quote (agentDescription answers))
                 (manifestOf answers)
  /\ Reader.readString (JSON.quote (slugify toLowerCase (agentName answers)) ++ u ",")
     = Some (slugify toLowerCase (agentName answers), u ",")
  /\ Reader.readString (JSON.quote (agentDescription answers) ++ u ",")
     = Some (agentDescription answers, u ",").
Proof.
  split; [| split; apply json_string_round_trip].
  unfold generateMonadPackageJson, manifestOf. cbv zeta.
  destruct (manifest_text_layout
              (hasFeature answers (u "a2a")) (hasFeature answers (u "mcp"))
              (slugify toLowerCase (agentName answers)) (agentDescription answers))
    as [Htext Hlines].
  cbv zeta in Htext, Hlines.
  destruct (hasFeature answers (u "a2a")), (hasFeature answers (u "mcp"));
    rewrite Htext, lines_join by discriminate;
    now apply flat_map_lines_noLF.
Qed.

Lemma whitespace_free_noLF (s : jsstring) :
  Forall (fun c => isWhiteSpace c = false) s -> noLF s = true.
Proof.
  intros H. unfold noLF. apply forallb_forall. intros c Hc.
  rewrite Forall_forall in H. specialize (H c Hc).
  destruct (c =? 10) eqn:E; [|reflexivity].
  apply N.eqb_eq in E. subst c. discriminate H.
Qed.

(* ===================================================================== *)
(** ** The quoted fields of the registration script *)
(* ===================================================================== *)

Lemma escapeQuotes_cons (c : char16) (s : jsstring) :
  escapeQuotes (c :: s) = (if c =? 34 then [92; 34] else [c]) ++ escapeQuotes s.
Proof. reflexivity. Qed.

Lemma scan_escaped (s rest : jsstring) :
  Reader.plainForLiteral s = true ->
  Reader.scanLiteral (escapeQuotes s ++ rest) =
  match Reader.scanLiteral rest with
  | Some (raw, after) => Some (escapeQuotes s ++ raw, after)
  | None => None
  end.
Proof.
  induction s as [|c s IH]; intros H.
  - simpl. now destruct (Reader.scanLiteral rest) as [[raw after]|].
  - cbn [Reader.plainForLiteral forallb] in H. apply andb_true_iff in H as [Hc Hs].
    apply negb_true_iff in Hc. apply orb_false_iff in Hc as [Hc Hcr].
    apply orb_false_iff in Hc as [Hbs Hlf].
    rewrite escapeQuotes_cons. destruct (c =? 34) eqn:Eq.
    + cbn [app Reader.scanLiteral]. change (92 =? 34) with false.
      change (92 =? 92) with true. cbv iota.
      rewrite (IH Hs). destruct (Reader.scanLiteral rest) as [[raw after]|]; reflexivity.
    + cbn [app Reader.scanLiteral]. rewrite Eq, Hbs, Hlf, Hcr. cbn [orb].
      rewrite (IH Hs). destruct (Reader.scanLiteral rest) as [[raw after]|]; reflexivity.
Qed.

Lemma unescape_escaped (s : jsstring) :
  Reader.plainForLiteral s = true -> Reader.unescapeQuotes (escapeQuotes s) = s.
Proof.
  induction s as [|c s IH]; intros H; [reflexivity|].
  cbn [Reader.plainForLiteral forallb] in H. apply andb_true_iff in H as [Hc Hs].
  apply negb_true_iff in Hc. apply orb_false_iff in Hc as [Hc _].
  apply orb_false_iff in Hc as [Hbs _].
  rewrite escapeQuotes_cons. destruct (c =? 34) eqn:Eq.
  - apply N.eqb_eq in Eq. subst c. cbn [app Reader.unescapeQuotes].
    change ((92 =? 92) && (34 =? 34)) with true. cbv iota. now rewrite (IH Hs).
  - cbn [app]. specialize (IH Hs).
    destruct (escapeQuotes s) as [|d r] eqn:E.
    + destruct s as [|x s]; [reflexivity|].
      rewrite escapeQuotes_cons in E. destruct (x =? 34); discriminate E.
    + change (Reader.unescapeQuotes (c :: d :: r))
        with (if (c =? 92) && (d =? 34) then 34 :: Reader.unescapeQuotes r
              else c :: Reader.unescapeQuotes (d :: r)).
      rewrite Hbs. cbn [andb]. now rewrite IH.
Qed.

(** X2: when [agentName] (or [agentDescription]) has no backslash, line feed
    or carriage return, the literal the script gets for it is closed by the
    quote of the template, and its value is the field: the escaping of the
    double quotes is undone by reading the literal. *)
Theorem escaped_literal_reads_back (s rest : jsstring) :
  Reader.plainForLiteral s = true ->
  Reader.scanLiteral (escapeQuotes s ++ DQ ++ rest) = Some (escapeQuotes s, rest)
  /\ Reader.unescapeQuotes (escapeQuotes s) = s.
Proof.
  intros H. split; [| now apply unescape_escaped].
  rewrite (scan_escaped s (DQ ++ rest) H). cbn. now rewrite app_nil_r.
Qed.

Lemma escaped_literal_reads_back_witness :
  Reader.scanLiteral (escapeQuotes (u "Say " ++ DQ ++ u "hi" ++ DQ) ++ DQ ++ u ",")
  = Some (escapeQuotes (u "Say " ++ DQ ++ u "hi" ++ DQ), u ",")
  /\ Reader.unescapeQuotes (escapeQuotes (u "Say " ++ DQ ++ u "hi" ++ DQ))
     = u "Say " ++ DQ ++ u "hi" ++ DQ.
Proof.
  apply (escaped_literal_reads_back (u "Say " ++ DQ ++ u "hi" ++ DQ) (u ",")).
  vm_compute. reflexivity.
Defined.

(** X3: the escaping stops at double quotes. After a text that can stand in
    a literal, a backslash at the end of the field takes the closing quote of
    the template, so the literal runs on into the script; a backslash before
    a double quote leaves that quote unescaped, so the literal ends there and
    the rest of the field is script text; a line feed ends the literal with
    an error. *)
Theorem escaping_stops_at_quotes (s s' rest : jsstring) :
  Reader.plainForLiteral s = true ->
  Reader.scanLiteral (escapeQuotes (s ++ BSLASH) ++ DQ ++ rest)
  = match Reader.scanLiteral rest with
    | Some (raw, after) => Some (escapeQuotes s ++ BSLASH ++ DQ ++ raw, after)
    | None => None
    end
  /\ Reader.scanLiteral (escapeQuotes (s ++ BSLASH ++ DQ ++ s') ++ DQ ++ rest)
     = Some (escapeQuotes s ++ BSLASH ++ BSLASH, escapeQuotes s' ++ DQ ++ rest)
  /\ Reader.scanLiteral (escapeQuotes (s ++ LF ++ s') ++ DQ ++ rest) = None.
Proof.
  intros H. repeat split.
  - rewrite escapeQuotes_app, <- app_assoc, (scan_escaped _ _ H).
    change (escapeQuotes BSLASH ++ DQ ++ rest) with (92 :: 34 :: rest).
    cbn [Reader.scanLiteral]. change (92 =? 34) with false. change (92 =? 92) with true.
    cbv iota. destruct (Reader.scanLiteral rest) as [[raw after]|]; reflexivity.
  - rewrite !escapeQuotes_app, <- !app_assoc, (scan_escaped _ _ H).
    change (escapeQuotes BSLASH ++ escapeQuotes DQ ++ escapeQuotes s' ++ DQ ++ rest)
      with (92 :: 92 :: 34 :: escapeQuotes s' ++ DQ ++ rest).
    reflexivity.
  - rewrite !escapeQuotes_app, <- !app_assoc, (scan_escaped _ _ H).
    change (escapeQuotes LF ++ escapeQuotes s' ++ DQ ++ rest)
      with (10 :: escapeQuotes s' ++ DQ ++ rest).
    reflexivity.
Qed.

Lemma escaping_stops_at_quotes_witness :
  Reader.scanLiteral (escapeQuotes (u "Agent" ++ BSLASH) ++ DQ ++ u "," ++ DQ ++ u ";")
  = Some (escapeQuotes (u "Agent") ++ BSLASH ++ DQ ++ u ",", u ";")
  /\ Reader.scanLiteral (escapeQuotes (u "Agent" ++ BSLASH ++ DQ ++ u ";x()") ++ DQ ++ u ",")
     = Some (escapeQuotes (u "Agent") ++ BSLASH ++ BSLASH, escapeQuotes (u ";x()") ++ DQ ++ u ",")
  /\ Reader.scanLiteral (escapeQuotes (u "Agent" ++ LF ++ u "x") ++ DQ ++ u ",") = None.
Proof.
  destruct (escaping_stops_at_quotes (u "Agent") (u ";x()") (u "," ++ DQ ++ u ";"))
    as (H1 & _ & _); [vm_compute; reflexivity|].
  destruct (escaping_stops_at_quotes (u "Agent") (u ";x()") (u ","))
    as (_ & H2 & _); [vm_compute; reflexivity|].
  destruct (escaping_stops_at_quotes (u "Agent") (u "x") (u ","))
    as (_ & _ & H3); [vm_compute; reflexivity|].
  split; [exact H1 | split; [exact H2 | exact H3]].
Defined.

(* ===================================================================== *)
(** ** Edge cases of the derived name *)
(* ===================================================================== *)

Lemma replaceWsFrom_whitespace (rep s : jsstring) (inRun : bool) :
  Forall (fun c => isWhiteSpace c = true) s -> s <> [] ->
  replaceWsFrom inRun rep s = if inRun then [] else rep.
Proof.
  revert inRun. induction s as [|c s IH]; intros inRun H Hne; [congruence|].
  inversion H as [|? ? Hc Hs]; subst. simpl. rewrite Hc.
  destruct s as [|d s].
  - simpl. now rewrite app_nil_r.
  - rewrite (IH true Hs) by discriminate. now rewrite app_nil_r.
Qed.

Lemma replaceWsFrom_length (s : jsstring) (inRun : bool) :
  (List.length (replaceWsFrom inRun (u "-") s) <= List.length s)%nat.
Proof.
  revert inRun. induction s as [|c s IH]; intros inRun; simpl; [lia|].
  destruct (isWhiteSpace c).
  - specialize (IH true). destruct inRun; simpl; lia.
  - specialize (IH false). simpl. lia.
Qed.

Lemma replaceWsFrom_fixed (s : jsstring) (inRun : bool) :
  Forall (fun c => isWhiteSpace c = false) s -> replaceWsFrom inRun (u "-") s = s.
Proof.
  revert inRun. induction s as [|c s IH]; intros inRun H; [reflexivity|].
  inversion H as [|? ? Hc Hs]; subst. simpl. rewrite Hc. now rewrite IH.
Qed.

Lemma replaceWsFrom_trailing (r : jsstring) (c : char16) :
  isWhiteSpace c = true ->
  (exists r', replaceWsFrom false (u "-") (r ++ [c]) = r' ++ [45])
  /\ (replaceWsFrom true (u "-") (r ++ [c]) = []
      \/ exists r', replaceWsFrom true (u "-") (r ++ [c]) = r' ++ [45]).
Proof.
  intros Hc. induction r as [|x r [IHf IHt]].
  - simpl. rewrite Hc. split; [exists []; reflexivity | now left].
  - simpl. destruct (isWhiteSpace x).
    + split.
      * destruct IHt as [-> | [r' ->]]; [exists []; reflexivity |].
        exists (45 :: r'). reflexivity.
      * exact IHt.
    + destruct IHf as [r' ->]. split; [| right]; exists (x :: r'); reflexivity.
Qed.

Section SlugEdges.

Variable toLowerCase : jsstring -> jsstring.

(** X4: the derived name is empty exactly when the lower-cased [agentName]
    is; a name of white space only gives a single hyphen; white space at the
    start or the end is not trimmed but becomes a hyphen there. *)
Theorem slug_edge_cases (agentName : jsstring) :
  (slugify toLowerCase agentName = [] <-> toLowerCase agentName = [])
  /\ (toLowerCase agentName <> [] ->
      Forall (fun c => isWhiteSpace c = true) (toLowerCase agentName) ->
      slugify toLowerCase agentName = u "-")
  /\ (forall c r, toLowerCase agentName = c :: r -> isWhiteSpace c = true ->
      exists r', slugify toLowerCase agentName = 45 :: r')
  /\ (forall r c, toLowerCase agentName = r ++ [c] -> isWhiteSpace c = true ->
      exists r', slugify toLowerCase agentName = r' ++ [45]).
Proof.
  unfold slugify, replaceWhitespaceRuns. repeat split.
  - destruct (toLowerCase agentName) as [|c r]; [reflexivity|].
    simpl. destruct (isWhiteSpace c); discriminate.
  - now intros ->.
  - intros Hne Hws. now apply replaceWsFrom_whitespace.
  - intros c r -> Hc. simpl. rewrite Hc. eexists. reflexivity.
  - intros r c -> Hc. exact (proj1 (replaceWsFrom_trailing r c Hc)).
Qed.

(** X5: the derived name is never longer than the lower-cased [agentName],
    and deriving a name from it again changes nothing. *)
Theorem slug_is_stable (agentName : jsstring) :
  (List.length (slugify toLowerCase agentName) <= List.length (toLowerCase agentName))%nat
  /\ replaceWhitespaceRuns (u "-") (slugify toLowerCase agentName)
     = slugify toLowerCase agentName.
Proof.
  split.
  - apply replaceWsFrom_length.
  - apply replaceWsFrom_fixed. apply replaceWhitespaceRuns_no_whitespace.
Qed.

End SlugEdges.

Lemma slug_edge_cases_witness :
  slugify Samples.asciiToLowerCase (u "   ") = u "-"
  /\ (exists r', slugify Samples.asciiToLowerCase (u " My Agent ") = 45 :: r')
  /\ (exists r', slugify Samples.asciiToLowerCase (u " My Agent ") = r' ++ [45]).
Proof.
  split; [| split].
  - apply (proj1 (proj2 (slug_edge_cases Samples.asciiToLowerCase (u "   ")))).
    + vm_compute. discriminate.
    + vm_compute. repeat constructor.
  - apply (proj1 (proj2 (proj2 (slug_edge_cases Samples.asciiToLowerCase (u " My Agent "))))
             32 (u "my agent ")); vm_compute; reflexivity.
  - apply (proj2 (proj2 (proj2 (slug_edge_cases Samples.asciiToLowerCase (u " My Agent "))))
             (u " my agent") 32); vm_compute; reflexivity.
Defined.

(* ===================================================================== *)
(** ** Chains and contract addresses *)
(* ===================================================================== *)

(** X6: [isMonadChain] holds for the two Monad chain ids and for nothing
    else; on a Monad chain the pair [getMonadContracts] returns tells the two
    apart, because the pairs differ in both addresses. *)
Theorem isMonadChain_exact (chain : jsstring) :
  (isMonadChain chain = true <-> chain = u "monad-mainnet" \/ chain = u "monad-testnet")
  /\ (getMonadContracts chain = mainnet MONAD_CONTRACTS <-> chain = u "monad-mainnet")
  /\ identityRegistry (mainnet MONAD_CONTRACTS) <> identityRegistry (testnet MONAD_CONTRACTS)
  /\ reputationRegistry (mainnet MONAD_CONTRACTS)
     <> reputationRegistry (testnet MONAD_CONTRACTS).
Proof.
  split; [| split; [| split]].
  - unfold isMonadChain. rewrite orb_true_iff.
    rewrite (str_eqb_eq chain (u "monad-mainnet")).
    rewrite (str_eqb_eq chain (u "monad-testnet")). reflexivity.
  - unfold getMonadContracts.
    destruct (str_eqb chain (u "monad-mainnet")) eqn:E.
    + apply str_eqb_eq in E. split; [intros _; exact E | intros _; reflexivity].
    + apply str_eqb_neq in E. split; [| intros H; contradiction].
      intros H. apply (f_equal identityRegistry) in H.
      vm_compute in H. discriminate H.
  - intros H. vm_compute in H. discriminate H.
  - intros H. vm_compute in H. discriminate H.
Qed.

Section RegistryAddress.

Variable toLowerCase : jsstring -> jsstring.

(** X7: the registration script and the README of one project name the same
    identity registry, the one [answers.chain] selects; the chain
    configuration passed to the generators has no part in the choice. *)
Theorem same_registry_in_script_and_readme
        (answers : WizardAnswers) (scriptChain readmeChain : ChainConfig) :
  let registry := identityRegistry (getMonadContracts (Wizard.chain answers)) in
  contains (u "const IDENTITY_REGISTRY = '" ++ registry ++ u "';")
           (generateMonadRegisterScript toLowerCase answers scriptChain)
  /\ contains (u "- **Identity Registry**: `" ++ registry ++ u "`")
              (generateMonadReadme toLowerCase answers readmeChain)
  /\ (registry = u "0x8004A169FB4a3325136EB29fA0ceB6D2e539a432"
      <-> Wizard.chain answers = u "monad-mainnet")
  /\ (registry = u "0x8004A818BFB912233c491871b3d84c89A494BD9e"
      <-> Wizard.chain answers <> u "monad-mainnet").
Proof.
  cbv zeta. split; [| split; [| split]].
  - unfold generateMonadRegisterScript. apply contains_join_elem.
    rewrite !in_app_iff. right. right. left.
    unfold contractConfigurationLines. do 4 right. left. reflexivity.
  - unfold generateMonadReadme. cbv zeta. apply contains_join_elem.
    rewrite !in_app_iff. right. right. left.
    unfold readmeContractsLines. do 3 right. left. reflexivity.
  - unfold getMonadContracts.
    destruct (str_eqb (Wizard.chain answers) (u "monad-mainnet")) eqn:E.
    + apply str_eqb_eq in E. split; [intros _; exact E | intros _; reflexivity].
    + apply str_eqb_neq in E. split; [| intros H; contradiction].
      intros H. vm_compute in H. discriminate H.
  - unfold getMonadContracts.
    destruct (str_eqb (Wizard.chain answers) (u "monad-mainnet")) eqn:E.
    + apply str_eqb_eq in E. split; [| intros H; contradiction].
      intros H. vm_compute in H. discriminate H.
    + apply str_eqb_neq in E. split; [intros _; exact E | intros _; reflexivity].
Qed.

End RegistryAddress.

(* ===================================================================== *)
(** ** The features as a set *)
(* ===================================================================== *)

Lemma hasFeature_same_elements (a1 a2 : WizardAnswers) (f : jsstring) :
  (forall x, In x (features a1) <-> In x (features a2)) ->
  hasFeature a1 f = hasFeature a2 f.
Proof.
  intros H. destruct (hasFeature a1 f) eqn:E1, (hasFeature a2 f) eqn:E2; try reflexivity.
  - apply hasFeature_In, H, hasFeature_In in E1. congruence.
  - apply hasFeature_In, H, hasFeature_In in E2. congruence.
Qed.

(** X8: the generators use [features] as a set: answers that differ only in
    the order or the repetition of their features, or in [projectDir] and
    [a2aStreaming], give the same four texts. *)
Theorem generators_read_features_as_set (toLowerCase : jsstring -> jsstring)
        (a1 a2 : WizardAnswers) (c : ChainConfig) :
  (forall x, In x (features a1) <-> In x (features a2)) ->
  agentName a1 = agentName a2 ->
  agentDescription a1 = agentDescription a2 ->
  agentImage a1 = agentImage a2 ->
  Wizard.chain a1 = Wizard.chain a2 ->
  Wizard.trustModels a1 = Wizard.trustModels a2 ->
  agentWallet a1 = agentWallet a2 ->
  generatedPrivateKey a1 = generatedPrivateKey a2 ->
  generateMonadPackageJson toLowerCase a1 = generateMonadPackageJson toLowerCase a2
  /\ generateMonadEnv a1 c = generateMonadEnv a2 c
  /\ generateMonadRegisterScript toLowerCase a1 c = generateMonadRegisterScript toLowerCase a2 c
  /\ generateMonadReadme toLowerCase a1 c = generateMonadReadme toLowerCase a2 c.
Proof.
  intros Hf Hn Hd Hi Hc Ht Hw Hk.
  pose proof (hasFeature_same_elements a1 a2 (u "a2a") Hf) as Ha.
  pose proof (hasFeature_same_elements a1 a2 (u "mcp") Hf) as Hm.
  split; [| split; [| split]].
  - now apply generateMonadPackageJson_reads.
  - now apply generateMonadEnv_reads.
  - now apply generateMonadRegisterScript_reads.
  - now apply generateMonadReadme_reads.
Qed.

Lemma withFeatures_keeps (fs : list jsstring) (a : WizardAnswers) :
  features (Samples.withFeatures fs a) = fs
  /\ agentName a = agentName (Samples.withFeatures fs a)
  /\ agentDescription a = agentDescription (Samples.withFeatures fs a)
  /\ agentImage a = agentImage (Samples.withFeatures fs a)
  /\ Wizard.chain a = Wizard.chain (Samples.withFeatures fs a)
  /\ Wizard.trustModels a = Wizard.trustModels (Samples.withFeatures fs a)
  /\ agentWallet a = agentWallet (Samples.withFeatures fs a)
  /\ generatedPrivateKey a = generatedPrivateKey (Samples.withFeatures fs a).
Proof. repeat split. Qed.

Lemma generators_read_features_as_set_witness :
  generateMonadPackageJson Samples.asciiToLowerCase Samples.demoAnswers
  = generateMonadPackageJson Samples.asciiToLowerCase
      (Samples.withFeatures [u "mcp"; u "a2a"; u "mcp"] Samples.demoAnswers)
  /\ generateMonadEnv Samples.demoAnswers Samples.monadTestnet
     = generateMonadEnv
         (Samples.withFeatures [u "mcp"; u "a2a"; u "mcp"] Samples.demoAnswers)
         Samples.monadTestnet
  /\ generateMonadRegisterScript Samples.asciiToLowerCase Samples.demoAnswers
       Samples.monadTestnet
     = generateMonadRegisterScript Samples.asciiToLowerCase
         (Samples.withFeatures [u "mcp"; u "a2a"; u "mcp"] Samples.demoAnswers)
         Samples.monadTestnet
  /\ generateMonadReadme Samples.asciiToLowerCase Samples.demoAnswers Samples.monadTestnet
     = generateMonadReadme Samples.asciiToLowerCase
         (Samples.withFeatures [u "mcp"; u "a2a"; u "mcp"] Samples.demoAnswers)
         Samples.monadTestnet.
Proof.
  destruct (withFeatures_keeps [u "mcp"; u "a2a"; u "mcp"] Samples.demoAnswers)
    as (Hf & Hn & Hd & Hi & Hc & Ht & Hw & Hk).
  apply (generators_read_features_as_set Samples.asciiToLowerCase
           Samples.demoAnswers
           (Samples.withFeatures [u "mcp"; u "a2a"; u "mcp"] Samples.demoAnswers)
           Samples.monadTestnet); try assumption.
  intros x. rewrite Hf. change (features Samples.demoAnswers) with [u "a2a"; u "mcp"].
  cbn [In]. split.
  - intros [H | [H | []]]; [right; left; exact H | left; exact H].
  - intros [H | [H | [H | []]]];
      [right; left; exact H | left; exact H | right; left; exact H].
Defined.

(* ===================================================================== *)
(** ** Assignments to the objects of the manifest *)
(* ===================================================================== *)

Lemma str_eqb_sym (a b : jsstring) : str_eqb a b = str_eqb b a.
Proof.
  destruct (str_eqb a b) eqn:E1, (str_eqb b a) eqn:E2; try reflexivity.
  - apply str_eqb_eq in E1. subst. now rewrite str_eqb_refl in E2.
  - apply str_eqb_eq in E2. subst. now rewrite str_eqb_refl in E1.
Qed.

Lemma get_set_same (k v : jsstring) (o : Rec.t) : Rec.get k (Rec.set k v o) = Some v.
Proof.
  induction o as [|[k' v'] o IH]; simpl.
  - now rewrite str_eqb_refl.
  - destruct (str_eqb k k') eqn:E; simpl; rewrite E; [reflexivity | exact IH].
Qed.

Lemma get_set_other (k k' v : jsstring) (o : Rec.t) :
  k <> k' -> Rec.get k' (Rec.set k v o) = Rec.get k' o.
Proof.
  intros Hne. induction o as [|[k0 v0] o IH]; simpl.
  - apply not_eq_sym in Hne. apply str_eqb_neq in Hne. now rewrite Hne.
  - destruct (str_eqb k k0) eqn:E; simpl.
    + apply str_eqb_eq in E. subst k0.
      apply not_eq_sym in Hne. apply str_eqb_neq in Hne. now rewrite Hne.
    + destruct (str_eqb k' k0); [reflexivity | exact IH].
Qed.

Lemma set_set_same (k v : jsstring) (o : Rec.t) :
  Rec.set k v (Rec.set k v o) = Rec.set k v o.
Proof.
  induction o as [|[k' v'] o IH]; simpl.
  - now rewrite str_eqb_refl.
  - destruct (str_eqb k k') eqn:E; simpl; rewrite E; [reflexivity | now rewrite IH].
Qed.

Lemma keys_set (k v : jsstring) (o : Rec.t) :
  Rec.keys (Rec.set k v o) = if includes (Rec.keys o) k then Rec.keys o else Rec.keys o ++ [k].
Proof.
  unfold Rec.keys, includes. induction o as [|[k' v'] o IH]; simpl; [reflexivity|].
  destruct (str_eqb k k') eqn:E; simpl; [reflexivity|].
  rewrite IH. now destruct (existsb (str_eqb k) (map fst o)).
Qed.

Lemma set_keeps_NoDup (k v : jsstring) (o : Rec.t) :
  NoDup (Rec.keys o) -> NoDup (Rec.keys (Rec.set k v o)).
Proof.
  intros H. rewrite keys_set. destruct (includes (Rec.keys o) k) eqn:E; [assumption|].
  apply NoDup_app; [assumption | repeat constructor; intros [] | ].
  intros x Hx [<- | []]. apply includes_In in Hx. congruence.
Qed.

Lemma set_id (k v : jsstring) (o : Rec.t) :
  Rec.get k o = Some v -> Rec.set k v o = o.
Proof.
  induction o as [|[k' v'] o IH]; simpl; [discriminate|].
  destruct (str_eqb k k').
  - now intros [= ->].
  - intros H. now rewrite IH.
Qed.

(** Two assignments to different keys, done again, change nothing. *)
Lemma set_pair_again (k1 k2 v1 v2 : jsstring) (o : Rec.t) :
  k1 <> k2 ->
  Rec.set k2 v2 (Rec.set k1 v1 (Rec.set k2 v2 (Rec.set k1 v1 o)))
  = Rec.set k2 v2 (Rec.set k1 v1 o).
Proof.
  intros Hne.
  rewrite (set_id k1 v1 (Rec.set k2 v2 (Rec.set k1 v1 o))).
  - apply set_set_same.
  - rewrite get_set_other by (apply not_eq_sym; exact Hne). apply get_set_same.
Qed.

(** X9: on any manifest, the additions of a feature can be repeated without
    effect, keep the keys of each object distinct, leave every entry they do
    not name as it was, and give the same entries in either order of the two
    features (the order of the keys apart). *)
Theorem feature_additions_compose (m : Manifest) :
  addA2A (addA2A m) = addA2A m
  /\ addMCP (addMCP m) = addMCP m
  /\ (NoDup (Rec.keys (scripts m)) -> NoDup (Rec.keys (dependencies m)) ->
      NoDup (Rec.keys (devDependencies m)) ->
      NoDup (Rec.keys (scripts (addMCP (addA2A m))))
      /\ NoDup (Rec.keys (dependencies (addMCP (addA2A m))))
      /\ NoDup (Rec.keys (devDependencies (addMCP (addA2A m)))))
  /\ (forall k, k <> u "start:a2a" -> k <> u "start:mcp" ->
      Rec.get k (scripts (addMCP (addA2A m))) = Rec.get k (scripts m))
  /\ (forall k,
      Rec.get k (scripts (addMCP (addA2A m))) = Rec.get k (scripts (addA2A (addMCP m)))
      /\ Rec.get k (dependencies (addMCP (addA2A m)))
         = Rec.get k (dependencies (addA2A (addMCP m)))
      /\ Rec.get k (devDependencies (addMCP (addA2A m)))
         = Rec.get k (devDependencies (addA2A (addMCP m)))).
Proof.
  split; [| split; [| split; [| split]]].
  - unfold addA2A. cbn [scripts dependencies devDependencies].
    rewrite set_set_same.
    rewrite (set_pair_again (u "express") (u "uuid"))
      by (intros H; vm_compute in H; discriminate H).
    rewrite (set_pair_again (u "@types/express") (u "@types/uuid"))
      by (intros H; vm_compute in H; discriminate H).
    reflexivity.
  - unfold addMCP. cbn [scripts dependencies devDependencies].
    now rewrite !set_set_same.
  - intros H1 H2 H3. unfold addMCP, addA2A. cbn [scripts dependencies devDependencies].
    repeat split; repeat apply set_keeps_NoDup; assumption.
  - intros k Ha Hm. unfold addMCP, addA2A. cbn [scripts].
    rewrite !get_set_other by (apply not_eq_sym; assumption). reflexivity.
  - intros k. unfold addMCP, addA2A. cbn [scripts dependencies devDependencies].
    split; [| split; [| reflexivity]].
    + destruct (str_eqb (u "start:mcp") k) eqn:E1.
      * apply str_eqb_eq in E1. subst k. rewrite get_set_same.
        rewrite get_set_other by (intros H; vm_compute in H; discriminate H).
        now rewrite get_set_same.
      * apply str_eqb_neq in E1. rewrite get_set_other by assumption.
        destruct (str_eqb (u "start:a2a") k) eqn:E2.
        -- apply str_eqb_eq in E2. subst k. now rewrite !get_set_same.
        -- apply str_eqb_neq in E2. now rewrite !get_set_other by assumption.
    + destruct (str_eqb (u "@modelcontextprotocol/sdk") k) eqn:E1.
      * apply str_eqb_eq in E1. subst k. rewrite get_set_same.
        rewrite !get_set_other by (intros H; vm_compute in H; discriminate H).
        now rewrite get_set_same.
      * apply str_eqb_neq in E1. rewrite get_set_other by assumption.
        destruct (str_eqb (u "uuid") k) eqn:E2.
        -- apply str_eqb_eq in E2. subst k. now rewrite !get_set_same.
        -- apply str_eqb_neq in E2. rewrite !(get_set_other (u "uuid")) by assumption.
           destruct (str_eqb (u "express") k) eqn:E3.
           ++ apply str_eqb_eq in E3. subst k. now rewrite !get_set_same.
           ++ apply str_eqb_neq in E3. now rewrite !get_set_other by assumption.
Qed.

(* ===================================================================== *)
(** ** The A2A server: requests and the two maps *)
(* ===================================================================== *)

Module A2AFacts.
Import A2A.

Lemma map_get_set_same (V : Type) (k : jsstring) (v : V) (m : JSMap.t V) :
  JSMap.get k (JSMap.set k v m) = Some v.
Proof.
  induction m as [|[k' v'] m IH]; simpl.
  - now rewrite str_eqb_refl.
  - destruct (str_eqb k k') eqn:E; simpl; rewrite E; [reflexivity | exact IH].
Qed.

Lemma map_get_set_other (V : Type) (k k' : jsstring) (v : V) (m : JSMap.t V) :
  k' <> k -> JSMap.get k' (JSMap.set k v m) = JSMap.get k' m.
Proof.
  intros Hne. induction m as [|[k0 v0] m IH]; simpl.
  - apply str_eqb_neq in Hne. now rewrite Hne.
  - destruct (str_eqb k k0) eqn:E; simpl.
    + apply str_eqb_eq in E. subst k0.
      apply str_eqb_neq in Hne. now rewrite Hne.
    + destruct (str_eqb k' k0); [reflexivity | exact IH].
Qed.

Lemma map_set_set (V : Type) (k : jsstring) (v v' : V) (m : JSMap.t V) :
  JSMap.set k v' (JSMap.set k v m) = JSMap.set k v' m.
Proof.
  induction m as [|[k0 v0] m IH]; simpl.
  - now rewrite str_eqb_refl.
  - destruct (str_eqb k k0) eqn:E; simpl; rewrite E; [reflexivity | now rewrite IH].
Qed.

Lemma key_eq_dec (k k' : jsstring) : k = k' \/ k <> k'.
Proof.
  destruct (str_eqb k k') eqn:E.
  - left. now apply str_eqb_eq.
  - right. now apply str_eqb_neq.
Qed.

Lemma method_tests :
  str_eqb (u "tasks/get") (u "message/send") = false
  /\ str_eqb (u "tasks/cancel") (u "message/send") = false
  /\ str_eqb (u "tasks/cancel") (u "tasks/get") = false.
Proof. vm_compute. repeat split. Qed.

Section Facts.

Variable typeErrorMessage : jsstring -> jsstring.

Lemma postA2A_version2 (w : World) (body : Body) (st : Store) :
  jsonrpc body = Some (u "2.0") ->
  postA2A typeErrorMessage w body st =
  match handleMethod typeErrorMessage w (method body) (params body) st with
  | (inr result, st') => ({| payload := Result result; responseId := requestId body |}, st')
  | (inl (Error m), st') =>
    ({| payload := Failure (-32603)%Z (orString (Some m) (u "Internal error"));
        responseId := requestId body |}, st')
  end.
Proof. intros H. unfold postA2A. rewrite H, str_eqb_refl. reflexivity. Qed.

Lemma postA2A_other_version (w : World) (body : Body) (st : Store) :
  jsonrpc body <> Some (u "2.0") ->
  postA2A typeErrorMessage w body st =
  ({| payload := Failure (-32600)%Z (u "Invalid Request"); responseId := requestId body |},
   st).
Proof.
  intros H. unfold postA2A. destruct (jsonrpc body) as [v|]; [| reflexivity].
  destruct (str_eqb v (u "2.0")) eqn:E; [| reflexivity].
  apply str_eqb_eq in E. subst v. now contradiction H.
Qed.

Lemma version_dec (body : Body) :
  jsonrpc body = Some (u "2.0") \/ jsonrpc body <> Some (u "2.0").
Proof.
  destruct (jsonrpc body) as [v|]; [| right; discriminate].
  destruct (key_eq_dec v (u "2.0")) as [-> | H]; [now left | right].
  intros [= E]. now apply H.
Qed.

Lemma handleMethod_send (w : World) (p : option Params) (st : Store) :
  handleMethod typeErrorMessage w (u "message/send") p st
  = handleMessageSend typeErrorMessage w p st.
Proof. unfold handleMethod. now rewrite str_eqb_refl. Qed.

Lemma handleMethod_get (w : World) (p : option Params) (st : Store) :
  handleMethod typeErrorMessage w (u "tasks/get") p st = handleTasksGet typeErrorMessage p st.
Proof.
  unfold handleMethod. destruct method_tests as (-> & _ & _). now rewrite str_eqb_refl.
Qed.

Lemma handleMethod_cancel (w : World) (p : option Params) (st : Store) :
  handleMethod typeErrorMessage w (u "tasks/cancel") p st
  = handleTasksCancel typeErrorMessage p st.
Proof.
  unfold handleMethod. destruct method_tests as (_ & -> & ->). now rewrite str_eqb_refl.
Qed.

(** [message/send] in the vocabulary of the properties. *)
Lemma handleMessageSend_cases (w : World) (p : Params) (st : Store) :
  handleMessageSend typeErrorMessage w (Some p) st =
  match message p with
  | None => (inl (Error (typeErrorMessage (u "parts"))), st)
  | Some m =>
    match generateResponse w (userTextOf m) (historyOf (contextOf w p) st) with
    | inl e => (inl e, st)
    | inr a =>
      (inr (exchangeTask (newTaskId w p) (contextOf w p) (userTextOf m) a),
       {| tasks :=
            JSMap.set (newTaskId w p)
                      (exchangeTask (newTaskId w p) (contextOf w p) (userTextOf m) a)
                      (tasks st);
          conversationHistory :=
            JSMap.set (contextOf w p)
                      (historyOf (contextOf w p) st ++ exchange (userTextOf m) a)
                      (conversationHistory st) |})
    end
  end.
Proof.
  unfold handleMessageSend, contextOf, newTaskId, givenContext, historyOf, orString.
  destruct (match configuration p with Some c => configContextId c | None => None end)
    as [[|c s]|]; reflexivity.
Qed.

(** A thrown error leaves the store as it was. *)
Lemma handleMethod_error_keeps_store (w : World) (m : jsstring) (p : option Params)
      (st st' : Store) (e : Thrown) :
  handleMethod typeErrorMessage w m p st = (inl e, st') -> st' = st.
Proof.
  unfold handleMethod.
  destruct (str_eqb m (u "message/send")).
  - destruct p as [p|]; [| now intros [= _ <-]].
    rewrite handleMessageSend_cases.
    destruct (message p) as [msg|]; [| now intros [= _ <-]].
    destruct (generateResponse w _ _); [now intros [= _ <-] | discriminate].
  - destruct (str_eqb m (u "tasks/get")).
    + unfold handleTasksGet. destruct (findTask typeErrorMessage p st) as [e'|[i t]];
        [now intros [= _ <-] | discriminate].
    + destruct (str_eqb m (u "tasks/cancel")).
      * unfold handleTasksCancel. destruct (findTask typeErrorMessage p st) as [e'|[i t]];
          [now intros [= _ <-] | discriminate].
      * now intros [= _ <-].
Qed.

(** X10: a request whose [jsonrpc] is not the string 2.0 is answered with
    error -32600, Invalid Request, and its id; no method is run and the two
    maps stay as they are. No request with version 2.0 gets that code. *)
Theorem wrong_version_is_rejected (w : World) (body : Body) (st : Store) :
  (jsonrpc body <> Some (u "2.0") ->
   postA2A typeErrorMessage w body st =
   ({| payload := Failure (-32600)%Z (u "Invalid Request"); responseId := requestId body |},
    st))
  /\ (jsonrpc body = Some (u "2.0") ->
      forall m,
        payload (responseTo (postA2A typeErrorMessage w body st)) <> Failure (-32600)%Z m).
Proof.
  split.
  - apply postA2A_other_version.
  - intros H m. rewrite (postA2A_version2 w body st H).
    destruct (handleMethod typeErrorMessage w (method body) (params body) st)
      as [[[e]|t] st']; cbn [responseTo fst payload]; discriminate.
Qed.

(** X11: whenever the response is an error, the store after the request is
    the store before it: a wrong version, an unknown method, a missing
    task, missing parameters and a failure of [generateResponse] change
    nothing. Every response carries the id of its request. *)
Theorem error_response_keeps_store (w : World) (body : Body) (st : Store) :
  responseId (responseTo (postA2A typeErrorMessage w body st)) = requestId body
  /\ (forall c m,
        payload (responseTo (postA2A typeErrorMessage w body st)) = Failure c m ->
        storeAfter (postA2A typeErrorMessage w body st) = st).
Proof.
  destruct (version_dec body) as [H | H].
  - rewrite (postA2A_version2 w body st H).
    destruct (handleMethod typeErrorMessage w (method body) (params body) st)
      as [[[e]|t] st'] eqn:E;
      cbn [responseTo storeAfter fst snd payload responseId]; split; try reflexivity.
    + intros _ _ _. now apply handleMethod_error_keeps_store in E.
    + discriminate.
  - rewrite (postA2A_other_version w body st H).
    cbn [responseTo storeAfter fst snd payload responseId]. split; reflexivity.
Qed.

(** X12: a method other than the three of the server is answered with error
    -32603 and the message Method not found: followed by the method as it
    was sent. The names are compared exactly. *)
Theorem unknown_method_is_reported (w : World) (body : Body) (st : Store)
        (Hversion : jsonrpc body = Some (u "2.0"))
        (Hsend : method body <> u "message/send")
        (Hget : method body <> u "tasks/get")
        (Hcancel : method body <> u "tasks/cancel") :
  postA2A typeErrorMessage w body st =
  ({| payload := Failure (-32603)%Z (u "Method not found: " ++ method body);
      responseId := requestId body |}, st).
Proof.
  rewrite (postA2A_version2 w body st Hversion). unfold handleMethod.
  apply str_eqb_neq in Hsend, Hget, Hcancel. rewrite Hsend, Hget, Hcancel.
  reflexivity.
Qed.

(** X13: [tasks/get] never changes the store. It answers with a task exactly
    when the parameters name a key of [tasks], and then with the task
    stored there; a key that is not there gives error -32603, Task not
    found. *)
Theorem tasks_get_reads_the_store (w : World) (body : Body) (st : Store)
        (Hversion : jsonrpc body = Some (u "2.0"))
        (Hmethod : method body = u "tasks/get") :
  storeAfter (postA2A typeErrorMessage w body st) = st
  /\ (forall t,
        payload (responseTo (postA2A typeErrorMessage w body st)) = Result t
        <-> exists p i,
            params body = Some p /\ taskId p = Some i /\ JSMap.get i (tasks st) = Some t)
  /\ (forall p i,
        params body = Some p -> taskId p = Some i -> JSMap.get i (tasks st) = None ->
        payload (responseTo (postA2A typeErrorMessage w body st))
        = Failure (-32603)%Z (u "Task not found")).
Proof.
  rewrite (postA2A_version2 w body st Hversion), Hmethod, handleMethod_get.
  unfold handleTasksGet, findTask.
  destruct (params body) as [p|] eqn:Ep.
  - destruct (taskId p) as [i|] eqn:Ei.
    + destruct (JSMap.get i (tasks st)) as [t0|] eqn:E;
        cbn [responseTo storeAfter fst snd payload]; (split; [reflexivity | split]).
      * intros t. split.
        -- intros [= <-]. exists p, i. now repeat split.
        -- intros (p' & i' & [= <-] & Hi & Ht). congruence.
      * intros p' i' [= <-] Hi Ht. congruence.
      * intros t. split; [discriminate |].
        intros (p' & i' & [= <-] & Hi & Ht). congruence.
      * intros _ _ _ _ _. reflexivity.
    + cbn [responseTo storeAfter fst snd payload]. split; [reflexivity | split].
      * intros t. split; [discriminate |].
        intros (p' & i' & [= <-] & Hi & Ht). congruence.
      * intros p' i' [= <-] Hi. congruence.
  - cbn [responseTo storeAfter fst snd payload]. split; [reflexivity | split].
    + intros t. split; [discriminate |]. intros (p' & i' & Hp & _). discriminate.
    + discriminate.
Qed.

(** A successful [message/send], read backwards. *)
Lemma send_result_inv (w : World) (body : Body) (st : Store) (t : Task) :
  jsonrpc body = Some (u "2.0") ->
  method body = u "message/send" ->
  payload (responseTo (postA2A typeErrorMessage w body st)) = Result t ->
  exists p m a,
    params body = Some p
    /\ message p = Some m
    /\ generateResponse w (userTextOf m) (historyOf (contextOf w p) st) = inr a
    /\ t = exchangeTask (newTaskId w p) (contextOf w p) (userTextOf m) a
    /\ storeAfter (postA2A typeErrorMessage w body st)
       = {| tasks := JSMap.set (newTaskId w p) t (tasks st);
            conversationHistory :=
              JSMap.set (contextOf w p)
                        (historyOf (contextOf w p) st ++ exchange (userTextOf m) a)
                        (conversationHistory st) |}.
Proof.
  intros Hv Hm. rewrite (postA2A_version2 w body st Hv), Hm, handleMethod_send.
  destruct (params body) as [p|].
  - rewrite handleMessageSend_cases.
    destruct (message p) as [m|] eqn:Em; [| discriminate].
    destruct (generateResponse w (userTextOf m) (historyOf (contextOf w p) st))
      as [[e]|a] eqn:Ea; [discriminate |].
    cbn [responseTo storeAfter fst snd payload]. intros [= <-].
    exists p, m, a. repeat split; assumption.
  - discriminate.
Qed.

Lemma send_result (w : World) (body : Body) (p : Params) (m : InMessage) (a : jsstring)
      (st : Store) :
  jsonrpc body = Some (u "2.0") ->
  method body = u "message/send" ->
  params body = Some p ->
  message p = Some m ->
  generateResponse w (userTextOf m) (historyOf (contextOf w p) st) = inr a ->
  postA2A typeErrorMessage w body st =
  ({| payload := Result (exchangeTask (newTaskId w p) (contextOf w p) (userTextOf m) a);
      responseId := requestId body |},
   {| tasks :=
        JSMap.set (newTaskId w p)
                  (exchangeTask (newTaskId w p) (contextOf w p) (userTextOf m) a)
                  (tasks st);
      conversationHistory :=
        JSMap.set (contextOf w p)
                  (historyOf (contextOf w p) st ++ exchange (userTextOf m) a)
                  (conversationHistory st) |}).
Proof.
  intros Hv Hm Hp Hmsg Ha.
  rewrite (postA2A_version2 w body st Hv), Hm, handleMethod_send, Hp,
    handleMessageSend_cases, Hmsg, Ha.
  reflexivity.
Qed.

Lemma get_result (w : World) (body : Body) (p : Params) (i : jsstring) (t : Task)
      (st : Store) :
  jsonrpc body = Some (u "2.0") ->
  method body = u "tasks/get" ->
  params body = Some p ->
  taskId p = Some i ->
  JSMap.get i (tasks st) = Some t ->
  postA2A typeErrorMessage w body st
  = ({| payload := Result t; responseId := requestId body |}, st).
Proof.
  intros Hv Hm Hp Hi Ht.
  rewrite (postA2A_version2 w body st Hv), Hm, handleMethod_get.
  unfold handleTasksGet, findTask. rewrite Hp, Hi, Ht. reflexivity.
Qed.

Lemma cancel_result (w : World) (body : Body) (p : Params) (i : jsstring) (t : Task)
      (st : Store) :
  jsonrpc body = Some (u "2.0") ->
  method body = u "tasks/cancel" ->
  params body = Some p ->
  taskId p = Some i ->
  JSMap.get i (tasks st) = Some t ->
  postA2A typeErrorMessage w body st
  = ({| payload := Result (withStatus canceled t); responseId := requestId body |},
     {| tasks := JSMap.set i (withStatus canceled t) (tasks st);
        conversationHistory := conversationHistory st |}).
Proof.
  intros Hv Hm Hp Hi Ht.
  rewrite (postA2A_version2 w body st Hv), Hm, handleMethod_cancel.
  unfold handleTasksCancel, findTask. rewrite Hp, Hi, Ht. reflexivity.
Qed.

Lemma historyOf_set_same (c : jsstring) (h : list AgentMessage) (ts : JSMap.t Task)
      (st : Store) :
  historyOf c {| tasks := ts; conversationHistory := JSMap.set c h (conversationHistory st) |}
  = h.
Proof. unfold historyOf. cbn [conversationHistory]. now rewrite map_get_set_same. Qed.

Lemma historyOf_set_other (c c' : jsstring) (h : list AgentMessage) (ts : JSMap.t Task)
      (st : Store) :
  c' <> c ->
  historyOf c' {| tasks := ts; conversationHistory := JSMap.set c h (conversationHistory st) |}
  = historyOf c' st.
Proof.
  intros H. unfold historyOf. cbn [conversationHistory]. now rewrite map_get_set_other.
Qed.

(** X14: the task that [message/send] answers with is stored under its id: a
    [tasks/get] with that id, right after, answers with the same task and
    leaves the store as it is. *)
Theorem sent_task_can_be_fetched (w w' : World) (body body' : Body) (p' : Params)
        (t : Task) (st : Store)
        (Hversion : jsonrpc body = Some (u "2.0"))
        (Hmethod : method body = u "message/send")
        (Hresult : payload (responseTo (postA2A typeErrorMessage w body st)) = Result t)
        (Hversion' : jsonrpc body' = Some (u "2.0"))
        (Hmethod' : method body' = u "tasks/get")
        (Hparams' : params body' = Some p')
        (Hid : taskId p' = Some (id t)) :
  postA2A typeErrorMessage w' body' (storeAfter (postA2A typeErrorMessage w body st))
  = ({| payload := Result t; responseId := requestId body' |},
     storeAfter (postA2A typeErrorMessage w body st)).
Proof.
  destruct (send_result_inv w body st t Hversion Hmethod Hresult)
    as (p & m & a & Hp & Hm & Ha & Ht & Hst).
  apply (get_result w' body' p' (id t)); try assumption.
  assert (Hi : id t = newTaskId w p) by (rewrite Ht; reflexivity).
  rewrite Hst, Hi. cbn [tasks]. apply map_get_set_same.
Qed.

(** X15: [tasks/cancel] of a stored task, whatever its status, answers with
    the task with status canceled and everything else as it was, and stores
    it under the same key; the other tasks and the histories are not
    touched, and a second cancel gives the same answer and the same
    store. *)
Theorem cancel_marks_the_task (w : World) (body : Body) (p : Params) (i : jsstring)
        (t : Task) (st : Store)
        (Hversion : jsonrpc body = Some (u "2.0"))
        (Hmethod : method body = u "tasks/cancel")
        (Hparams : params body = Some p)
        (Hid : taskId p = Some i)
        (Htask : JSMap.get i (tasks st) = Some t) :
  responseTo (postA2A typeErrorMessage w body st)
  = {| payload := Result (withStatus canceled t); responseId := requestId body |}
  /\ JSMap.get i (tasks (storeAfter (postA2A typeErrorMessage w body st)))
     = Some (withStatus canceled t)
  /\ (forall j, j <> i ->
        JSMap.get j (tasks (storeAfter (postA2A typeErrorMessage w body st)))
        = JSMap.get j (tasks st))
  /\ conversationHistory (storeAfter (postA2A typeErrorMessage w body st))
     = conversationHistory st
  /\ postA2A typeErrorMessage w body (storeAfter (postA2A typeErrorMessage w body st))
     = postA2A typeErrorMessage w body st.
Proof.
  rewrite (cancel_result w body p i t st Hversion Hmethod Hparams Hid Htask).
  cbn [responseTo storeAfter fst snd tasks conversationHistory].
  split; [reflexivity |].
  split; [apply map_get_set_same |].
  split; [intros j Hj; now apply map_get_set_other |].
  split; [reflexivity |].
  rewrite (cancel_result w body p i (withStatus canceled t)
             {| tasks := JSMap.set i (withStatus canceled t) (tasks st);
                conversationHistory := conversationHistory st |}
             Hversion Hmethod Hparams Hid (map_get_set_same _ _ _ _)).
  cbn [tasks conversationHistory]. rewrite map_set_set. reflexivity.
Qed.



(** X18: when the agent fails, the response is error -32603 with the message
    of the failure, or Internal error when that message is empty, and the
    store stays as it is: the question is not recorded. *)
Theorem agent_failure_is_reported (w : World) (body : Body) (p : Params)
        (m : InMessage) (e : jsstring) (st : Store)
        (Hversion : jsonrpc body = Some (u "2.0"))
        (Hmethod : method body = u "message/send")
        (Hparams : params body = Some p)
        (Hmessage : message p = Some m)
        (Hfailure :
           generateResponse w (userTextOf m) (historyOf (contextOf w p) st)
           = inl (Error e)) :
  postA2A typeErrorMessage w body st
  = ({| payload :=
          Failure (-32603)%Z (match e with [] => u "Internal error" | _ => e end);
        responseId := requestId body |}, st).
Proof.
  rewrite (postA2A_version2 w body st Hversion), Hmethod, handleMethod_send, Hparams,
    handleMessageSend_cases, Hmessage, Hfailure.
  unfold orString. now destruct e.
Qed.

Lemma isTextPart_false (part : InPart) :
  isTextPart part = false
  <-> partType part <> u "text" \/ partText part = None \/ partText part = Some [].
Proof.
  unfold isTextPart. destruct (str_eqb (partType part) (u "text")) eqn:E.
  - apply str_eqb_eq in E. cbn [andb].
    destruct (partText part) as [[|c s]|]; split.
    + intros _. right. now right.
    + reflexivity.
    + discriminate.
    + intros [H | [H | H]]; [now contradiction H | discriminate | discriminate].
    + intros _. right. now left.
    + reflexivity.
  - apply str_eqb_neq in E. cbn [andb]. split; [now left | reflexivity].
Qed.

(** X19: the text of a message is made of its text parts only: a part whose
    type is not text, or that has no text or the empty text, changes
    nothing, wherever it stands, and a message with only such parts has the
    empty text. *)
Theorem other_parts_are_ignored (r : jsstring) (before after : list InPart) (part : InPart)
        (Hpart : partType part <> u "text" \/ partText part = None
                 \/ partText part = Some []) :
  userTextOf {| messageRole := r; messageParts := before ++ part :: after |}
  = userTextOf {| messageRole := r; messageParts := before ++ after |}
  /\ userTextOf {| messageRole := r; messageParts := [part] |} = [].
Proof.
  apply isTextPart_false in Hpart. unfold userTextOf. cbn [messageParts].
  rewrite !filter_app. cbn [filter]. rewrite Hpart. split; reflexivity.
Qed.

Lemma exchanges_nil : exchanges [].
Proof. now exists []. Qed.

Lemma exchanges_app (h : list AgentMessage) (q a : jsstring) :
  exchanges h -> exchanges (h ++ exchange q a).
Proof.
  intros [qas ->]. exists (qas ++ [(q, a)]).
  rewrite flat_map_app. cbn [flat_map fst snd]. now rewrite app_nil_r.
Qed.

Lemma historyOf_exchanges (c : jsstring) (st : Store) :
  wellFormed st -> exchanges (historyOf c st).
Proof.
  intros [_ H]. unfold historyOf.
  destruct (JSMap.get c (conversationHistory st)) as [h|] eqn:E;
    [now apply (H c) | apply exchanges_nil].
Qed.

(** A stored task stays one when the history of its context only grows and
    the rest of it is kept. *)
Lemma storedTask_grows (st st' : Store) (k : jsstring) (t : Task) :
  (exists more, historyOf (contextId t) st' = historyOf (contextId t) st ++ more) ->
  storedTask st k t -> storedTask st' k t.
Proof.
  intros [more Hmore] (Hid & Hstatus & Hart & q & a & Hmsg & h1 & h2 & Hh).
  repeat split; try assumption.
  exists q, a. split; [assumption |].
  exists h1, (h2 ++ more). rewrite Hmore, Hh. now rewrite <- !app_assoc.
Qed.

Lemma send_preserves (w : World) (p : Params) (m : InMessage) (a : jsstring)
      (st : Store) :
  wellFormed st ->
  wellFormed
    {| tasks :=
         JSMap.set (newTaskId w p)
                   (exchangeTask (newTaskId w p) (contextOf w p) (userTextOf m) a)
                   (tasks st);
       conversationHistory :=
         JSMap.set (contextOf w p)
                   (historyOf (contextOf w p) st ++ exchange (userTextOf m) a)
                   (conversationHistory st) |}.
Proof.
  intros Hwf. pose proof Hwf as [Ht Hh]. split; cbn [tasks conversationHistory].
  - intros k t. destruct (key_eq_dec k (newTaskId w p)) as [-> | Hk].
    + rewrite map_get_set_same. intros [= <-].
      split; [reflexivity |]. split; [now left |]. split; [reflexivity |].
      exists (userTextOf m), a. split; [reflexivity |].
      exists (historyOf (contextOf w p) st), [].
      cbn [contextId exchangeTask]. rewrite historyOf_set_same. now rewrite app_nil_r.
    + rewrite (map_get_set_other _ _ _ _ _ Hk). intros Hget.
      apply (storedTask_grows st); [| now apply Ht].
      destruct (key_eq_dec (contextId t) (contextOf w p)) as [-> | Hc].
      * exists (exchange (userTextOf m) a). apply historyOf_set_same.
      * exists []. rewrite app_nil_r. now apply historyOf_set_other.
  - intros c h. destruct (key_eq_dec c (contextOf w p)) as [-> | Hc].
    + rewrite map_get_set_same. intros [= <-].
      apply exchanges_app. now apply historyOf_exchanges.
    + rewrite (map_get_set_other _ _ _ _ _ Hc). apply Hh.
Qed.

Lemma cancel_preserves (i : jsstring) (t : Task) (st : Store) :
  JSMap.get i (tasks st) = Some t ->
  wellFormed st ->
  wellFormed
    {| tasks := JSMap.set i (withStatus canceled t) (tasks st);
       conversationHistory := conversationHistory st |}.
Proof.
  intros Hget [Ht Hh]. split; cbn [tasks conversationHistory]; [| exact Hh].
  intros k t'. destruct (key_eq_dec k i) as [-> | Hk].
  - rewrite map_get_set_same. intros [= <-].
    destruct (Ht i t Hget) as (Hid & _ & Hart & q & a & Hmsg & h1 & h2 & Hhist).
    split; [exact Hid |]. split; [now right |]. split; [exact Hart |].
    exists q, a. split; [exact Hmsg |]. exists h1, h2. exact Hhist.
  - rewrite (map_get_set_other _ _ _ _ _ Hk). intros Hget'.
    apply (storedTask_grows st); [| now apply Ht].
    exists []. now rewrite app_nil_r.
Qed.

Lemma postA2A_preserves (w : World) (body : Body) (st : Store) :
  wellFormed st -> wellFormed (storeAfter (postA2A typeErrorMessage w body st)).
Proof.
  intros Hwf. destruct (version_dec body) as [Hv | Hv].
  2: { now rewrite (postA2A_other_version w body st Hv). }
  rewrite (postA2A_version2 w body st Hv).
  destruct (handleMethod typeErrorMessage w (method body) (params body) st)
    as [[[e]|t] st'] eqn:E; cbn [storeAfter snd].
  { apply handleMethod_error_keeps_store in E. now subst st'. }
  revert E. unfold handleMethod.
  destruct (str_eqb (method body) (u "message/send")).
  - destruct (params body) as [p|]; [| discriminate].
    rewrite handleMessageSend_cases.
    destruct (message p) as [m|]; [| discriminate].
    destruct (generateResponse w (userTextOf m) (historyOf (contextOf w p) st))
      as [?|a]; [discriminate |].
    intros [= _ <-]. now apply send_preserves.
  - destruct (str_eqb (method body) (u "tasks/get")).
    + unfold handleTasksGet.
      destruct (findTask typeErrorMessage (params body) st) as [?|[i t0]];
        [discriminate | now intros [= _ <-]].
    + destruct (str_eqb (method body) (u "tasks/cancel")); [| discriminate].
      unfold handleTasksCancel, findTask.
      destruct (params body) as [p|]; [| discriminate].
      destruct (taskId p) as [i|]; [| discriminate].
      destruct (JSMap.get i (tasks st)) as [t0|] eqn:Eget; [| discriminate].
      intros [= _ <-]. now apply cancel_preserves.
Qed.

Lemma postA2A_result_stored (w : World) (body : Body) (st : Store) (t : Task) :
  wellFormed st ->
  payload (responseTo (postA2A typeErrorMessage w body st)) = Result t ->
  JSMap.get (id t) (tasks (storeAfter (postA2A typeErrorMessage w body st))) = Some t.
Proof.
  intros Hwf. destruct (version_dec body) as [Hv | Hv].
  2: { rewrite (postA2A_other_version w body st Hv). discriminate. }
  rewrite (postA2A_version2 w body st Hv). unfold handleMethod.
  destruct (str_eqb (method body) (u "message/send")).
  - destruct (params body) as [p|]; [| discriminate].
    rewrite handleMessageSend_cases.
    destruct (message p) as [m|]; [| discriminate].
    destruct (generateResponse w (userTextOf m) (historyOf (contextOf w p) st))
      as [[e]|a]; [discriminate |].
    cbn [responseTo storeAfter fst snd payload tasks]. intros [= <-].
    apply map_get_set_same.
  - destruct (str_eqb (method body) (u "tasks/get")).
    + unfold handleTasksGet, findTask.
      destruct (params body) as [p|]; [| discriminate].
      destruct (taskId p) as [i|]; [| discriminate].
      destruct (JSMap.get i (tasks st)) as [t0|] eqn:Eget; [| discriminate].
      cbn [responseTo storeAfter fst snd payload]. intros [= <-].
      destruct Hwf as [Ht _]. destruct (Ht i t0 Eget) as [-> _]. exact Eget.
    + destruct (str_eqb (method body) (u "tasks/cancel")); [| discriminate].
      unfold handleTasksCancel, findTask.
      destruct (params body) as [p|]; [| discriminate].
      destruct (taskId p) as [i|]; [| discriminate].
      destruct (JSMap.get i (tasks st)) as [t0|] eqn:Eget; [| discriminate].
      cbn [responseTo storeAfter fst snd payload tasks]. intros [= <-].
      destruct Hwf as [Ht _]. destruct (Ht i t0 Eget) as [Hid _].
      cbn [id withStatus]. rewrite Hid. apply map_get_set_same.
Qed.

Lemma serve_cons (w : World) (body : Body) (rest : list (World * Body)) (st : Store) :
  serve typeErrorMessage ((w, body) :: rest) st
  = (responseTo (postA2A typeErrorMessage w body st)
       :: fst (serve typeErrorMessage rest (storeAfter (postA2A typeErrorMessage w body st))),
     snd (serve typeErrorMessage rest (storeAfter (postA2A typeErrorMessage w body st)))).
Proof.
  cbn [serve]. destruct (postA2A typeErrorMessage w body st) as [r st'].
  cbn [responseTo storeAfter fst snd].
  now destruct (serve typeErrorMessage rest st') as [rs st''].
Qed.

Lemma serve_preserves (requests : list (World * Body)) (st : Store) :
  wellFormed st -> wellFormed (snd (serve typeErrorMessage requests st)).
Proof.
  revert st. induction requests as [|[w body] rest IH]; intros st Hwf; [exact Hwf |].
  rewrite serve_cons. cbn [snd]. apply IH. now apply postA2A_preserves.
Qed.

Lemma wellFormed_empty : wellFormed emptyStore.
Proof. split; intros k v; discriminate. Qed.

(** X20: in every store that the server reaches from the empty one, a task
    is stored under its own id, is completed or canceled, has no artifacts
    and has two messages, a question of the user and the answer of the
    agent, which the history of its context has as two successive entries;
    and every history is a sequence of such pairs. *)
Theorem served_store_is_well_formed (requests : list (World * Body)) :
  wellFormed (snd (serve typeErrorMessage requests emptyStore)).
Proof. apply serve_preserves, wellFormed_empty. Qed.

(** X21: after any requests from the empty store, a request that is answered
    with a task leaves that task in the store under its id: the answer of a
    [tasks/get] or a [tasks/cancel] is the state that the next [tasks/get]
    of the same id sees. *)
Theorem answered_task_is_stored (requests : list (World * Body)) (w : World)
        (body : Body) (t : Task)
        (Hresult :
           payload (responseTo
                      (postA2A typeErrorMessage w body
                         (snd (serve typeErrorMessage requests emptyStore))))
           = Result t) :
  JSMap.get (id t)
    (tasks (storeAfter
              (postA2A typeErrorMessage w body
                 (snd (serve typeErrorMessage requests emptyStore)))))
  = Some t.
Proof.
  apply postA2A_result_stored; [| exact Hresult].
  apply serve_preserves, wellFormed_empty.
Qed.

End Facts.

Import A2ASamples.

Lemma unknown_method_is_reported_witness :
  postA2A typeErrorMessage echoWorld listTasks emptyStore =
  ({| payload := Failure (-32603)%Z (u "Method not found: " ++ method listTasks);
      responseId := requestId listTasks |}, emptyStore).
Proof.
  apply unknown_method_is_reported;
    [reflexivity | | |]; intros H; vm_compute in H; discriminate H.
Defined.

Lemma tasks_get_reads_the_store_witness :
  storeAfter (postA2A typeErrorMessage echoWorld getHello afterHello) = afterHello.
Proof.
  apply (tasks_get_reads_the_store typeErrorMessage echoWorld getHello afterHello);
    reflexivity.
Defined.

Lemma sent_task_can_be_fetched_witness :
  postA2A typeErrorMessage failingWorld getHello
    (storeAfter (postA2A typeErrorMessage echoWorld hello emptyStore))
  = ({| payload := Result helloTask; responseId := requestId getHello |},
     storeAfter (postA2A typeErrorMessage echoWorld hello emptyStore)).
Proof.
  apply (sent_task_can_be_fetched typeErrorMessage echoWorld failingWorld hello getHello
           (taskParams (u "uuid-b")) helloTask emptyStore);
    try reflexivity; vm_compute; reflexivity.
Defined.

Lemma cancel_marks_the_task_witness :
  JSMap.get (u "uuid-b")
    (tasks (storeAfter (postA2A typeErrorMessage echoWorld cancelHello afterHello)))
  = Some (withStatus canceled helloTask).
Proof.
  apply (cancel_marks_the_task typeErrorMessage echoWorld cancelHello
           (taskParams (u "uuid-b")) (u "uuid-b") helloTask afterHello);
    try reflexivity; vm_compute; reflexivity.
Defined.



Lemma agent_failure_is_reported_witness :
  postA2A typeErrorMessage failingWorld hello emptyStore
  = ({| payload := Failure (-32603)%Z (u "model unavailable");
        responseId := requestId hello |}, emptyStore).
Proof.
  apply (agent_failure_is_reported typeErrorMessage failingWorld hello helloParams
           helloMessage (u "model unavailable") emptyStore);
    reflexivity.
Defined.

Lemma other_parts_are_ignored_witness :
  userTextOf {| messageRole := u "user";
                messageParts := [textPart (u "a")] ++ filePart :: [textPart (u "b")] |}
  = userTextOf {| messageRole := u "user";
                  messageParts := [textPart (u "a")] ++ [textPart (u "b")] |}.
Proof.
  apply (other_parts_are_ignored (u "user") [textPart (u "a")] [textPart (u "b")] filePart).
  left. intros H. vm_compute in H. discriminate H.
Defined.

Lemma answered_task_is_stored_witness :
  JSMap.get (id (withStatus canceled helloTask))
    (tasks (storeAfter
              (postA2A typeErrorMessage echoWorld cancelHello
                 (snd (serve typeErrorMessage [(echoWorld, hello)] emptyStore)))))
  = Some (withStatus canceled helloTask).
Proof.
  apply (answered_task_is_stored typeErrorMessage [(echoWorld, hello)] echoWorld
           cancelHello (withStatus canceled helloTask)).
  vm_compute. reflexivity.
Defined.

End A2AFacts.
